(** * aicodeprep-go: the file selector and the configuration, verified

    A shallow embedding of [internal/selector/selector.go] and
    [internal/config/config.go].

    Go strings are byte strings: they are [string] here.  An [int64] is a
    [Z]; the code only compares sizes, it never computes with them.  A Go
    function returning [(value, error)] returns a pair whose second
    component is [option error], [None] being [nil].  A [nil] slice and an
    empty slice are both [[]].

    The Go standard library and the operating system are not part of the
    repository.  The pure functions of package [strings] are written out
    (module [strings]); what depends on the file system or on package
    [path/filepath] is a field of the record [World] (module [selector]) or
    [Env] (module [config]), with the result type Go gives it, and every
    theorem holds for every such world. *)

From Stdlib Require Import ZArith Ascii String.
From stdpp Require Import base strings list gmap.

Local Open Scope Z_scope.

(** ** Errors *)

(** The error values the two packages see or build. *)
Inductive error : Type :=
| ErrBadPattern                           (* filepath.ErrBadPattern *)
| ErrNotExist                             (* an error os.IsNotExist accepts *)
| ErrOS (msg : string)                    (* any other error of the system *)
| Errorf (msg : string) (cause : error).  (* fmt.Errorf(msg + ": %w", cause) *)

(** ** Package strings *)

Module strings.

(** [strings.HasPrefix(s, prefix)]. *)
Fixpoint HasPrefix (s prefix : string) {struct prefix} : bool :=
  match prefix with
  | EmptyString => true
  | String c prefix' =>
      match s with
      | EmptyString => false
      | String d s' => if Ascii.eqb c d then HasPrefix s' prefix' else false
      end
  end.

(** [strings.Contains(s, substr)]. *)
Fixpoint Contains (s substr : string) : bool :=
  HasPrefix s substr ||
  match s with
  | EmptyString => false
  | String _ s' => Contains s' substr
  end.

(** [s[n:]]. *)
Fixpoint drop (n : nat) (s : string) : string :=
  match n, s with
  | O, _ => s
  | S _, EmptyString => EmptyString
  | S n', String _ s' => drop n' s'
  end.

(** [s[:n]]. *)
Fixpoint take (n : nat) (s : string) : string :=
  match n, s with
  | O, _ => EmptyString
  | S _, EmptyString => EmptyString
  | S n', String c s' => String c (take n' s')
  end.

(** [strings.HasSuffix(s, suffix)]:
    [len(s) >= len(suffix) && s[len(s)-len(suffix):] == suffix]. *)
Definition HasSuffix (s suffix : string) : bool :=
  (String.length suffix <=? String.length s)%nat &&
  String.eqb (drop (String.length s - String.length suffix) s) suffix.

(** [strings.TrimPrefix(s, prefix)]. *)
Definition TrimPrefix (s prefix : string) : string :=
  if HasPrefix s prefix then drop (String.length prefix) s else s.

(** [strings.TrimSuffix(s, suffix)]. *)
Definition TrimSuffix (s suffix : string) : string :=
  if HasSuffix s suffix
  then take (String.length s - String.length suffix) s
  else s.

(** [strings.Cut(s, sep)]: the text before and after the first instance
    of [sep], or [None] when [sep] does not occur. *)
Fixpoint Cut (s sep : string) : option (string * string) :=
  if HasPrefix s sep then Some (EmptyString, drop (String.length sep) s)
  else
    match s with
    | EmptyString => None
    | String c s' =>
        match Cut s' sep with
        | Some (before, after) => Some (String c before, after)
        | None => None
        end
    end.

(** [strings.SplitN(s, sep, 2)] for a non-empty [sep]: one slice element
    when [sep] does not occur in [s], otherwise the text before the first
    [sep] and the whole text after it. *)
Definition SplitN2 (s sep : string) : list string :=
  match Cut s sep with
  | Some (before, after) => [before; after]
  | None => [s]
  end.

End strings.

(** ** Package selector *)

Module selector.

(** What [filepath.WalkDir] hands to its callback on one call:
    [fn(path, d, err)].  [wv_dir] is [d.IsDir()]; Go passes a nil [d]
    only together with an error, and the callback reads [err] first. *)
Record WalkVisit : Type := {
  wv_path : string;
  wv_dir : bool;
  wv_err : option error
}.

(** What the selector reads of the [fs.FileInfo] that [os.Stat] returns:
    [info.Mode().IsRegular()] and [info.Size()]. *)
Record Stat_t : Type := {
  st_regular : bool;
  st_size : Z
}.

(** The library and system calls of the selector.  [None] is the call's
    error.  [filepath.Glob] and [filepath.Match] have one error,
    [ErrBadPattern], for a malformed pattern.  [walk_visits root] is the
    sequence of callback calls [filepath.WalkDir root] makes as long as
    the callback returns nil. *)
Record World : Type := {
  filepath_Glob : string -> option (list string);
  filepath_Match : string -> string -> option bool;
  filepath_Abs : string -> option string;
  filepath_Rel : string -> string -> option string;
  filepath_Base : string -> string;
  walk_visits : string -> list WalkVisit;
  os_Stat : string -> option Stat_t
}.

(** [FileSelector]: glob patterns, exclusions and the size ceiling. *)
Record FileSelector : Type := {
  patterns : list string;
  excludes : list string;
  maxFileSize : Z
}.

(** [FileInfo]: a selected file. *)
Record FileInfo : Type := {
  Path : string;
  Size : Z
}.

(** [New(patterns, excludes, maxFileSize)]. *)
Definition New (patterns excludes : list string) (maxFileSize : Z)
  : FileSelector :=
  {| patterns := patterns; excludes := excludes;
     maxFileSize := maxFileSize |}.

(** [filepath.WalkDir]'s protocol over a sequence of visits: the callback
    runs on each visit in turn, threading the state it mutates; the first
    non-nil error it returns stops the walk and is WalkDir's result,
    otherwise WalkDir returns nil. *)
Fixpoint WalkLoop {S : Type}
  (fn : WalkVisit -> S -> S * option error)
  (visits : list WalkVisit) (s : S) : S * option error :=
  match visits with
  | [] => (s, None)
  | v :: rest =>
      match fn v s with
      | (s', Some e) => (s', Some e)
      | (s', None) => WalkLoop fn rest s'
      end
  end.

Section WithWorld.

Variable w : World.

Definition WalkDir {S : Type} (root : string)
  (fn : WalkVisit -> S -> S * option error) (s : S) : S * option error :=
  WalkLoop fn (walk_visits w root) s.

(** [absPath, err := filepath.Abs(path);
     if err == nil { matches = append(matches, absPath) }]. *)
Definition appendAbs (matches : list string) (path : string)
  : list string :=
  match filepath_Abs w path with
  | Some absPath => matches ++ [absPath]
  | None => matches
  end.

(** The callback [expandRecursiveGlob] gives to WalkDir; [matches] is
    the variable it captures. *)
Definition walkFn (prefix suffix : string) (v : WalkVisit)
  (matches : list string) : list string * option error :=
  match wv_err v with
  | Some _ => (matches, None)
  | None =>
      if wv_dir v then (matches, None)
      else if String.eqb suffix "" then
        (appendAbs matches (wv_path v), None)
      else
        match filepath_Rel w prefix (wv_path v) with
        | None => (matches, None)
        | Some relPath =>
            match filepath_Match w suffix relPath with
            | None => (matches, None)
            | Some true => (appendAbs matches (wv_path v), None)
            | Some false =>
                match filepath_Match w suffix
                        (filepath_Base w (wv_path v)) with
                | Some true => (appendAbs matches (wv_path v), None)
                | _ => (matches, None)
                end
            end
        end
  end.

(** [filepath.Glob(pattern)] as a Go result pair. *)
Definition Glob (pattern : string) : list string * option error :=
  match filepath_Glob w pattern with
  | Some matches => (matches, None)
  | None => ([], Some ErrBadPattern)
  end.

(** [expandRecursiveGlob]: recursive glob patterns, with [**]. *)
Definition expandRecursiveGlob (pattern : string)
  : list string * option error :=
  match strings.SplitN2 pattern "**" with
  | [part0; part1] =>
      let prefix := strings.TrimSuffix part0 "/" in
      let suffix := strings.TrimPrefix part1 "/" in
      let prefix := if String.eqb prefix "" then "." else prefix in
      WalkDir prefix (walkFn prefix suffix) []
  | _ => Glob pattern
  end.

(** [expandGlob]: simple globs and recursive patterns. *)
Definition expandGlob (pattern : string) : list string * option error :=
  if strings.Contains pattern "**" then expandRecursiveGlob pattern
  else
    match Glob pattern with
    | (_, Some err) => ([], Some err)
    | (matches, None) => (omap (filepath_Abs w) matches, None)
    end.

(** [matchesRecursiveExclude(path, pattern)]. *)
Definition matchesRecursiveExclude (path pattern : string) : bool :=
  match strings.SplitN2 pattern "**" with
  | [part0; part1] =>
      let prefix := strings.TrimSuffix part0 "/" in
      let suffix := strings.TrimPrefix part1 "/" in
      if negb (String.eqb prefix "") && negb (strings.Contains path prefix)
      then false
      else if negb (String.eqb suffix "") then
        default false (filepath_Match w suffix (filepath_Base w path))
      else String.eqb prefix "" || strings.Contains path prefix
  | _ => default false (filepath_Match w pattern path)
  end.

(** One exclude pattern of the loop of [isExcluded]: [true] is the
    [return true] of the loop body. *)
Definition excludeMatches (path exclude : string) : bool :=
  if strings.Contains exclude "**" then
    matchesRecursiveExclude path exclude
  else
    match filepath_Match w exclude (filepath_Base w path) with
    | Some true => true
    | _ =>
        match filepath_Match w exclude path with
        | Some true => true
        | _ => false
        end
    end.

(** [isExcluded(path)]: the loop over [fs.excludes]. *)
Fixpoint isExcludedBy (excl : list string) (path : string) : bool :=
  match excl with
  | [] => false
  | exclude :: rest =>
      if excludeMatches path exclude then true
      else isExcludedBy rest path
  end.

Definition isExcluded (fs : FileSelector) (path : string) : bool :=
  isExcludedBy (excludes fs) path.

(** The state of the loops of [SelectFiles]: [files] and the map
    [processedFiles].  Reading a Go map at a missing key gives [false]. *)
Definition SelState : Type := list FileInfo * gmap string bool.

Definition processed (processedFiles : gmap string bool) (key : string)
  : bool :=
  default false (processedFiles !! key).

(** The body of the inner loop, [for _, match := range matches]. *)
Definition selectMatch (fs : FileSelector) (st : SelState)
  (match_ : string) : SelState :=
  let '(files, processedFiles) := st in
  if processed processedFiles match_ then st
  else
    let processedFiles := <[match_ := true]> processedFiles in
    if isExcluded fs match_ then (files, processedFiles)
    else
      match os_Stat w match_ with
      | None => (files, processedFiles)
      | Some info =>
          if negb (st_regular info) then (files, processedFiles)
          else if (maxFileSize fs >? 0) && (st_size info >? maxFileSize fs)
          then (files, processedFiles)
          else (files ++ [{| Path := match_; Size := st_size info |}],
                processedFiles)
      end.

(** The outer loop, [for _, pattern := range patterns]. *)
Fixpoint selectPatterns (fs : FileSelector) (pats : list string)
  (st : SelState) : list FileInfo * option error :=
  match pats with
  | [] => (st.1, None)
  | pattern :: rest =>
      match expandGlob pattern with
      | (_, Some err) =>
          ([], Some (Errorf ("failed to expand pattern '" +:+ pattern
                               +:+ "'") err))
      | (matches, None) =>
          selectPatterns fs rest (foldl (selectMatch fs) st matches)
      end
  end.

(** [SelectFiles]. *)
Definition SelectFiles (fs : FileSelector) : list FileInfo * option error :=
  let patterns :=
    if (length (patterns fs) =? 0)%nat then ["*"] else patterns fs in
  selectPatterns fs patterns ([], ∅).

End WithWorld.

End selector.


(** ** Package config *)

Module config.

(** [Config]: the application configuration. *)
Record Config : Type := {
  Files : list string;
  Exclude : list string;
  Prompt : string;
  MaxFileSize : Z;
  Output : string
}.

(** [DefaultConfig()]. *)
Definition DefaultConfig : Config :=
  {| Files := [];
     Exclude := ["vendor/**"; "node_modules/**"; ".git/**"];
     Prompt := "";
     MaxFileSize := 1048576;
     Output := "" |}.

(** The system and library calls of [LoadConfig]: [os.Open] gives a file
    (a descriptor here) or an error, [io.ReadAll] the bytes of an open file
    or an error, and [yaml.Unmarshal(data, config)] the configuration with
    the document's keys written over it, or an error. *)
Record Env : Type := {
  os_Open : string -> nat + error;
  io_ReadAll : nat -> string + error;
  yaml_Unmarshal : string -> Config -> Config + error
}.

(** [os.IsNotExist(err)]. *)
Definition IsNotExist (err : error) : bool :=
  match err with
  | ErrNotExist => true
  | _ => false
  end.

(** [LoadConfig(path)]: the pair of the configuration pointer and the
    error, [None] being nil. *)
Definition LoadConfig (env : Env) (path : string)
  : option Config * option error :=
  let config := DefaultConfig in
  match os_Open env path with
  | inr err =>
      if IsNotExist err then (Some config, None)
      else (None, Some (Errorf "failed to open config file" err))
  | inl file =>
      match io_ReadAll env file with
      | inr err => (None, Some (Errorf "failed to read config file" err))
      | inl data =>
          match yaml_Unmarshal env data config with
          | inr err => (None, Some (Errorf "failed to parse config file" err))
          | inl config' => (Some config', None)
          end
      end
  end.

(** [c.Merge(files, exclude, prompt, output, maxFileSize)]: the receiver
    after the call. *)
Definition Merge (c : Config) (files exclude : list string)
  (prompt output : string) (maxFileSize : Z) : Config :=
  let c :=
    if (0 <? length files)%nat
    then {| Files := Files c ++ files; Exclude := Exclude c;
            Prompt := Prompt c; MaxFileSize := MaxFileSize c;
            Output := Output c |}
    else c in
  let c :=
    if (0 <? length exclude)%nat
    then {| Files := Files c; Exclude := Exclude c ++ exclude;
            Prompt := Prompt c; MaxFileSize := MaxFileSize c;
            Output := Output c |}
    else c in
  let c :=
    if negb (String.eqb prompt "")
    then {| Files := Files c; Exclude := Exclude c;
            Prompt := prompt; MaxFileSize := MaxFileSize c;
            Output := Output c |}
    else c in
  let c :=
    if negb (String.eqb output "")
    then {| Files := Files c; Exclude := Exclude c;
            Prompt := Prompt c; MaxFileSize := MaxFileSize c;
            Output := output |}
    else c in
  if maxFileSize >? 0
  then {| Files := Files c; Exclude := Exclude c;
          Prompt := Prompt c; MaxFileSize := maxFileSize;
          Output := Output c |}
  else c.

End config.


(** ** The selection the specification describes *)

Module selection.

Import selector.

(** The first occurrence of every element, in order: what a set of seen
    paths leaves of a sequence. *)
Fixpoint nub (l : list string) : list string :=
  match l with
  | [] => []
  | x :: l' => x :: filter (λ y, y ≠ x) (nub l')
  end.

(** The include patterns in force: ["*"] stands in for an empty list. *)
Definition effectivePatterns (fs : FileSelector) : list string :=
  match patterns fs with
  | [] => ["*"]
  | _ => patterns fs
  end.

(** A simple glob is a pattern without the recursive marker. *)
Definition simpleGlob (pattern : string) : bool :=
  negb (strings.Contains pattern "**").

(** The candidates of a run: the matches of every pattern, in input order. *)
Definition candidates (w : World) (pats : list string) : list string :=
  pats ≫= λ pattern, (expandGlob w pattern).1.

(** [name] glob-matches [pattern]: [filepath.Match] reports a match. *)
Definition globMatches (w : World) (pattern name : string) : bool :=
  match filepath_Match w pattern name with
  | Some true => true
  | _ => false
  end.

(** The path of a walked file relative to the walk root glob-matches. *)
Definition relMatches (w : World) (root suffix path : string) : bool :=
  match filepath_Rel w root path with
  | Some relPath => globMatches w suffix relPath
  | None => false
  end.

(** A walked entry is a file: delivered without error, not a directory. *)
Definition walkedFile (v : WalkVisit) : bool :=
  match wv_err v with
  | Some _ => false
  | None => negb (wv_dir v)
  end.

(** The emission rule of recursive expansion, in the specification's words:
    a walked file, and the suffix is empty, or the relative path matches
    it, or the base name does. *)
Definition emits (w : World) (root suffix : string) (v : WalkVisit) : bool :=
  walkedFile v &&
  (String.eqb suffix "" ||
   relMatches w root suffix (wv_path v) ||
   globMatches w suffix (filepath_Base w (wv_path v))).

(** What one walked entry adds to the matches: its absolute path, when it
    passes the emission rule and the conversion succeeds. *)
Definition emitted (w : World) (root suffix : string) (v : WalkVisit)
  : option string :=
  if emits w root suffix v then filepath_Abs w (wv_path v) else None.

(** What exclusion, stat, file type and size leave of one candidate. *)
Definition survivor (w : World) (fs : FileSelector) (path : string)
  : option FileInfo :=
  if isExcluded w fs path then None
  else
    match os_Stat w path with
    | None => None
    | Some info =>
        if st_regular info
        then if (maxFileSize fs >? 0) && (st_size info >? maxFileSize fs)
             then None
             else Some {| Path := path; Size := st_size info |}
        else None
    end.

(** The same without the size test. *)
Definition survivorAnySize (w : World) (fs : FileSelector) (path : string)
  : option FileInfo :=
  if isExcluded w fs path then None
  else
    match os_Stat w path with
    | None => None
    | Some info =>
        if st_regular info
        then Some {| Path := path; Size := st_size info |}
        else None
    end.

(** Some include pattern of the list is a simple glob that does not parse. *)
Definition malformedSimple (w : World) (pattern : string) : Prop :=
  simpleGlob pattern = true ∧ filepath_Glob w pattern = None.

(** The error [SelectFiles] builds for a pattern. *)
Definition expandError (pattern : string) (err : error) : error :=
  Errorf ("failed to expand pattern '" +:+ pattern +:+ "'") err.

(** The paths of a result, and how often a path occurs among them. *)
Definition paths (files : list FileInfo) : list string := Path <$> files.

Definition occurrences (P : string) (files : list FileInfo) : nat :=
  length (filter (λ y, y = P) (paths files)).

(** Two include patterns, at different places of the list, match [P]. *)
Definition matchedTwice (w : World) (pats : list string) (P : string)
  : Prop :=
  ∃ (i j : nat) (p q : string),
    i ≠ j ∧ pats !! i = Some p ∧ pats !! j = Some q ∧
    P ∈ (expandGlob w p).1 ∧ P ∈ (expandGlob w q).1.

(** The sentence "a path matched by two or more include patterns appears
    exactly once in the output", at one selector and one path. *)
Definition appearsOnceWhenMatchedTwice (w : World) (fs : FileSelector)
  (P : string) : Prop :=
  matchedTwice w (effectivePatterns fs) P →
  occurrences P (SelectFiles w fs).1 = 1%nat.

(** The sentence "a parse failure of one include pattern does not
    terminate selection of the remaining patterns", at one pattern list
    [ps1 ++ p :: ps2]: the run returns what the other patterns select. *)
Definition continuesPastMalformed (w : World) (ps1 : list string)
  (p : string) (ps2 excl : list string) (maxSize : Z) : Prop :=
  malformedSimple w p →
  (SelectFiles w (New (ps1 ++ p :: ps2) excl maxSize)).1 =
  (SelectFiles w (New (ps1 ++ ps2) excl maxSize)).1.

End selection.


(** ** A world to run the selector in

    A working directory [/w] holding [a.go] (100 bytes), [b.txt] (50
    bytes) and the directory [sub] with [sub/c.go] (4,000,000 bytes), and
    a shell-glob matcher in the style of package [path/filepath] on Unix
    for single-byte text: [*] and [?] stop at the separator, a backslash
    quotes the next byte, [[...]] is a class with ranges and [^]
    negation.  It is a stand-in to run the selector on concrete inputs,
    not a model of the library: it parses the whole pattern before it
    looks at the name, so it rejects a malformed pattern on every name,
    and it tries every split at a [*]; the library scans pattern and name
    together and need not do either.  No theorem about the selector
    depends on it: those are stated for every world. *)

Module demo.

Import selector.

Inductive token : Type :=
| TStar
| TAny
| TLit (c : ascii)
| TClass (negated : bool) (ranges : list (ascii * ascii)).

(** One class member, after [getEsc]: a possibly quoted byte that is
    neither [-] nor the closing bracket, with text left behind it. *)
Definition getEsc (chunk : list ascii) : option (ascii * list ascii) :=
  match chunk with
  | [] => None
  | c :: rest =>
      if Ascii.eqb c "-" || Ascii.eqb c "]" then None
      else if Ascii.eqb c "\" then
        match rest with
        | c' :: ((_ :: _) as nchunk) => Some (c', nchunk)
        | _ => None
        end
      else
        match rest with
        | [] => None
        | _ => Some (c, rest)
        end
  end%char.

(** The ranges of a class up to its closing bracket. *)
Fixpoint parseRanges (fuel : nat) (chunk : list ascii)
  (acc : list (ascii * ascii)) : option (list (ascii * ascii) * list ascii) :=
  match fuel with
  | O => None
  | S fuel' =>
      match chunk, acc with
      | ("]"%char :: rest), (_ :: _) => Some (rev acc, rest)
      | _, _ =>
          match getEsc chunk with
          | None => None
          | Some (lo, chunk1) =>
              match chunk1 with
              | "-"%char :: chunk2 =>
                  match getEsc chunk2 with
                  | None => None
                  | Some (hi, chunk3) =>
                      parseRanges fuel' chunk3 ((lo, hi) :: acc)
                  end
              | _ => parseRanges fuel' chunk1 ((lo, lo) :: acc)
              end
          end
      end
  end.

(** The tokens of a pattern, [None] for a malformed one. *)
Fixpoint parsePattern (fuel : nat) (pattern : list ascii)
  : option (list token) :=
  match fuel with
  | O => None
  | S fuel' =>
      match pattern with
      | [] => Some []
      | c :: rest =>
          if Ascii.eqb c "*" then cons TStar <$> parsePattern fuel' rest
          else if Ascii.eqb c "?" then cons TAny <$> parsePattern fuel' rest
          else if Ascii.eqb c "\" then
            match rest with
            | [] => None
            | c' :: rest' => cons (TLit c') <$> parsePattern fuel' rest'
            end
          else if Ascii.eqb c "[" then
            let '(negated, body) :=
              match rest with
              | "^"%char :: body => (true, body)
              | _ => (false, rest)
              end in
            match parseRanges (S (length body)) body [] with
            | None => None
            | Some (ranges, rest') =>
                cons (TClass negated ranges) <$> parsePattern fuel' rest'
            end
          else cons (TLit c) <$> parsePattern fuel' rest
      end
  end%char.

Definition inRanges (c : ascii) (ranges : list (ascii * ascii)) : bool :=
  existsb (λ r, (nat_of_ascii r.1 <=? nat_of_ascii c)%nat &&
                (nat_of_ascii c <=? nat_of_ascii r.2)%nat) ranges.

Fixpoint matchTokens (ts : list token) (name : list ascii) : bool :=
  match ts with
  | [] => match name with [] => true | _ => false end
  | TStar :: ts' =>
      (fix star (n : list ascii) : bool :=
         matchTokens ts' n ||
         match n with
         | [] => false
         | c :: n' => if Ascii.eqb c "/" then false else star n'
         end) name
  | TAny :: ts' =>
      match name with
      | c :: n' => negb (Ascii.eqb c "/") && matchTokens ts' n'
      | [] => false
      end
  | TLit c :: ts' =>
      match name with
      | d :: n' => Ascii.eqb c d && matchTokens ts' n'
      | [] => false
      end
  | TClass negated ranges :: ts' =>
      match name with
      | d :: n' => xorb negated (inRanges d ranges) && matchTokens ts' n'
      | [] => false
      end
  end.

(** [filepath.Match(pattern, name)]. *)
Definition Match (pattern name : string) : option bool :=
  let p := list_ascii_of_string pattern in
  match parsePattern (S (length p)) p with
  | None => None
  | Some ts => Some (matchTokens ts (list_ascii_of_string name))
  end.

(** The tree: paths relative to the working directory, in lexical order,
    with what [os.Stat] reports. *)
Definition tree : list (string * Stat_t) :=
  [ ("a.go", {| st_regular := true; st_size := 100 |});
    ("b.txt", {| st_regular := true; st_size := 50 |});
    ("sub", {| st_regular := false; st_size := 4096 |});
    ("sub/c.go", {| st_regular := true; st_size := 4000000 |}) ].

(** [filepath.Glob(pattern)]: the names of the tree that match. *)
Definition Glob (pattern : string) : option (list string) :=
  match Match pattern "" with
  | None => None
  | Some _ =>
      Some (omap (λ e, match Match pattern e.1 with
                       | Some true => Some e.1
                       | _ => None
                       end) tree)
  end.

(** [filepath.Abs(path)] in the directory [/w]. *)
Definition Abs (path : string) : option string :=
  if strings.HasPrefix path "/" then Some path
  else if String.eqb path "." then Some "/w"
  else Some ("/w/" +:+ path).

(** [filepath.Rel(basepath, targpath)] for a target under the base. *)
Definition Rel (basepath targpath : string) : option string :=
  if String.eqb basepath targpath then Some "."
  else if String.eqb basepath "." then Some targpath
  else if strings.HasPrefix targpath (basepath +:+ "/")
       then Some (strings.drop (S (String.length basepath)) targpath)
       else None.

(** [filepath.Base(path)] for a path that does not end in a separator:
    the text after the last separator. *)
Fixpoint Base (path : string) : string :=
  match path with
  | EmptyString => "."
  | String c rest =>
      if strings.Contains rest "/" then Base rest
      else if Ascii.eqb c "/" then
        match rest with EmptyString => "/" | _ => rest end
      else path
  end.

(** The calls [filepath.WalkDir(root, fn)] makes: the root, then what lies
    under it; one call with the error when the root cannot be read. *)
Definition visits (root : string) : list WalkVisit :=
  let under (dir : string) :=
    omap (λ e, if strings.HasPrefix e.1 (dir +:+ "/")
               then Some {| wv_path := e.1;
                            wv_dir := negb (st_regular e.2);
                            wv_err := None |}
               else None) tree in
  if String.eqb root "." then
    {| wv_path := "."; wv_dir := true; wv_err := None |} ::
    map (λ e, {| wv_path := e.1; wv_dir := negb (st_regular e.2);
                 wv_err := None |}) tree
  else
    match list_find (λ e, e.1 = root) tree with
    | Some (_, e) =>
        {| wv_path := root; wv_dir := negb (st_regular e.2);
           wv_err := None |} :: under root
    | None => [ {| wv_path := root; wv_dir := false;
                   wv_err := Some ErrNotExist |} ]
    end.

(** [os.Stat(path)] of an absolute path. *)
Definition Stat (path : string) : option Stat_t :=
  match list_find (λ e, "/w/" +:+ e.1 = path) tree with
  | Some (_, e) => Some e.2
  | None => None
  end.

(** A system for [LoadConfig]: [aicodeprep.yaml] opens and holds one key,
    [locked.yaml] exists but cannot be opened, [broken.yaml] does not
    parse, and no other file exists. *)
Definition env : config.Env :=
  {| config.os_Open := λ path,
       if String.eqb path "aicodeprep.yaml" then inl 3%nat
       else if String.eqb path "broken.yaml" then inl 4%nat
       else if String.eqb path "locked.yaml"
            then inr (ErrOS "permission denied")
            else inr ErrNotExist;
     config.io_ReadAll := λ file,
       if (file =? 3)%nat then inl "max_file_size: 10"
       else if (file =? 4)%nat then inl "files: ["
       else inr (ErrOS "bad file descriptor");
     config.yaml_Unmarshal := λ data c,
       if String.eqb data "max_file_size: 10"
       then inl {| config.Files := config.Files c;
                   config.Exclude := config.Exclude c;
                   config.Prompt := config.Prompt c;
                   config.MaxFileSize := 10;
                   config.Output := config.Output c |}
       else inr (ErrOS "yaml: did not find expected node content") |}.

Definition world : World :=
  {| filepath_Glob := Glob;
     filepath_Match := Match;
     filepath_Abs := Abs;
     filepath_Rel := Rel;
     filepath_Base := Base;
     walk_visits := visits;
     os_Stat := Stat |}.

End demo.


(** ** Package formatter *)

Module formatter.

Import selector.

(** The line feed, Go's ["\n"]. *)
Definition LF : string := String "010" EmptyString.

(** An [int64] after an arithmetic operation: the value modulo [2^64] in
    the signed range. *)
Definition wrap64 (z : Z) : Z :=
  (z + 2 ^ 63) `mod` 2 ^ 64 - 2 ^ 63.

(** What [formatBytes] hands to [fmt.Sprintf]: the byte count for
    ["%d B"], or the two operands of the float division and the unit
    letter for ["%.1f %cB"].  The float arithmetic of the formatting is
    not part of the model. *)
Inductive ByteFormat : Type :=
| PlainBytes (bytes : Z)
| ScaledBytes (bytes div : Z) (letter : ascii).

Definition unit : Z := 1024.

(** The loop [for n := bytes / unit; n >= unit; n /= unit], with [div]
    and [exp]; [None] when the fuel runs out. *)
Fixpoint scaleLoop (fuel : nat) (n div : Z) (exp : nat) : option (Z * nat) :=
  match fuel with
  | O => None
  | S fuel' =>
      if n >=? unit
      then scaleLoop fuel' (Z.quot n unit) (wrap64 (div * unit)) (S exp)
      else Some (div, exp)
  end.

(** [formatBytes(bytes)]; [None] is a run-time panic (the index into
    ["KMGTPE"] out of range) or the fuel running out. *)
Definition formatBytes (bytes : Z) : option ByteFormat :=
  if bytes <? unit then Some (PlainBytes bytes)
  else
    match scaleLoop 64 (Z.quot bytes unit) unit 0 with
    | None => None
    | Some (div, exp) =>
        match String.get exp "KMGTPE" with
        | None => None
        | Some letter => Some (ScaledBytes bytes div letter)
        end
    end.

(** The system and library calls of the formatter, beside those of the
    selector: whether [os.Open] succeeds on a path ([None]) or with which
    error it fails, the lines a [bufio.Scanner] over the file yields with
    the scanner's final error, [utf8.ValidString], [strings.TrimSpace] and
    [os.Getwd]. *)
Record Sys : Type := {
  world : World;
  os_Open : string -> option error;
  scan_lines : string -> list string * option error;
  utf8_ValidString : string -> bool;
  strings_TrimSpace : string -> string;
  os_Getwd : option string
}.

(** [PromptFormatter]. *)
Record PromptFormatter : Type := {
  prompt : string;
  files : list FileInfo;
  verbose : bool
}.

(** [New(prompt, files, verbose)]. *)
Definition New (prompt : string) (files : list FileInfo) (verbose : bool)
  : PromptFormatter :=
  {| prompt := prompt; files := files; verbose := verbose |}.

(** [ValidateFiles(files)]: the files that stat as regular files and
    open. *)
Definition validFile (sys : Sys) (file : FileInfo) : bool :=
  match os_Stat (world sys) (Path file) with
  | Some info =>
      st_regular info &&
      match os_Open sys (Path file) with
      | None => true
      | Some _ => false
      end
  | None => false
  end.

Fixpoint ValidateFiles (sys : Sys) (files : list FileInfo) : list FileInfo :=
  match files with
  | [] => []
  | file :: rest =>
      if validFile sys file then file :: ValidateFiles sys rest
      else ValidateFiles sys rest
  end.

(** [readFileAsString(file)]: every scanned line followed by a line feed;
    the open file is named by its path. *)
Definition readFileAsString (sys : Sys) (file : string)
  : string * option error :=
  let '(lines, err) := scan_lines sys file in
  let result := foldl (λ result line, result +:+ line +:+ LF) "" lines in
  match err with
  | Some e => ("", Some e)
  | None => (result, None)
  end.

(** [readFileContent(filePath)]. *)
Definition readFileContent (sys : Sys) (filePath : string)
  : string * option error :=
  match os_Open sys filePath with
  | Some err => ("", Some (Errorf "failed to open file" err))
  | None =>
      match readFileAsString sys filePath with
      | (_, Some err) => ("", Some (Errorf "failed to read file content" err))
      | (content, None) =>
          if negb (utf8_ValidString sys content)
          then ("", Some (ErrOS "file contains invalid UTF-8 encoding"))
          else (content, None)
      end
  end.

(** [GetRelativePath(path)]. *)
Definition GetRelativePath (sys : Sys) (path : string) : string :=
  match os_Getwd sys with
  | Some wd =>
      match filepath_Rel (world sys) wd path with
      | Some relPath =>
          if (String.length relPath <? String.length path)%nat &&
             negb (strings.HasPrefix relPath "../..")
          then relPath
          else path
      | None => path
      end
  | None => path
  end.

(** The body of the loop of [Format] over [pf.files]; [result] is the
    string builder.  What goes to [os.Stderr] and the progress bar are not
    modelled. *)
Definition formatFile (sys : Sys) (result : string) (file : FileInfo)
  : string :=
  match readFileContent sys (Path file) with
  | (_, Some _) => result
  | (content, None) =>
      if String.eqb (strings_TrimSpace sys content) "" then result
      else
        let displayPath := GetRelativePath sys (Path file) in
        let result := result +:+ ("--- 文件: " +:+ displayPath +:+ " ---" +:+ LF) in
        let result := result +:+ content in
        let result :=
          if negb (strings.HasSuffix content LF) then result +:+ LF
          else result in
        result +:+ LF
  end.

(** [pf.Format()]. *)
Definition Format (sys : Sys) (pf : PromptFormatter) : string * option error :=
  let result := "" in
  let result := result +:+ ("=== 用户需求 ===" +:+ LF) in
  let result :=
    if negb (String.eqb (prompt pf) "") then result +:+ prompt pf
    else result +:+ "请分析以下代码文件。" in
  let result := result +:+ (LF +:+ LF) in
  let result := result +:+ ("=== 文件内容开始 ===" +:+ LF) in
  let result := foldl (formatFile sys) result (files pf) in
  let result := result +:+ ("=== 文件内容结束 ===" +:+ LF +:+ LF) in
  let result := result +:+ ("=== 用户需求 ===" +:+ LF) in
  let result :=
    if negb (String.eqb (prompt pf) "") then result +:+ prompt pf
    else result +:+ "请分析以上代码文件。" in
  let result := result +:+ LF in
  (result, None).

(** The block of one file in the output of [Format]: nothing for a file
    that cannot be read or holds only white space, otherwise a header
    line, the content and one empty line. *)
Definition fileBlock (sys : Sys) (file : FileInfo) : string :=
  match readFileContent sys (Path file) with
  | (_, Some _) => ""
  | (content, None) =>
      if String.eqb (strings_TrimSpace sys content) "" then ""
      else "--- 文件: " +:+ GetRelativePath sys (Path file) +:+ " ---" +:+ LF
           +:+ content +:+ LF
  end.

(** The text before and after the file blocks. *)
Definition header (pf : PromptFormatter) : string :=
  "=== 用户需求 ===" +:+ LF +:+
  (if String.eqb (prompt pf) "" then "请分析以下代码文件。" else prompt pf)
  +:+ LF +:+ LF +:+ "=== 文件内容开始 ===" +:+ LF.

Definition footer (pf : PromptFormatter) : string :=
  "=== 文件内容结束 ===" +:+ LF +:+ LF +:+ "=== 用户需求 ===" +:+ LF +:+
  (if String.eqb (prompt pf) "" then "请分析以上代码文件。" else prompt pf)
  +:+ LF.

End formatter.

(** ** Package interactive *)

Module interactive.

Import selector.

(** The [bufio.Scanner] over standard input: the lines still to come, and
    the error [Err()] reports once [Scan()] has returned false. *)
Record Scanner : Type := {
  sc_lines : list string;
  sc_err : option error
}.

(** [scanner.Scan()] with [scanner.Text()]: the next line and the scanner
    after it, or [None] when [Scan()] returns false. *)
Definition Scan (sc : Scanner) : option (string * Scanner) :=
  match sc_lines sc with
  | line :: rest => Some (line, {| sc_lines := rest; sc_err := sc_err sc |})
  | [] => None
  end.

(** The library calls of the input handler: [strings.TrimSpace],
    [strings.Fields], and [fmt.Sscanf(part, "%d", &index)] with the index
    it stores, [None] when it returns an error. *)
Record Lib : Type := {
  strings_TrimSpace : string -> string;
  strings_Fields : string -> list string;
  fmt_Sscanf_d : string -> option Z
}.

(** The loop of [GetFilePatterns], which is also the loop of
    [GetExcludePatterns]: trimmed lines up to the first empty one.  It
    returns the lines read, the error and the scanner left behind. *)
Fixpoint readPatterns (lib : Lib) (lines : list string) (err : option error)
  (patterns : list string) : (list string * option error) * Scanner :=
  match lines with
  | [] =>
      match err with
      | Some e => (([], Some (Errorf "failed to read input" e)),
                   {| sc_lines := []; sc_err := err |})
      | None => ((patterns, None), {| sc_lines := []; sc_err := err |})
      end
  | text :: rest =>
      let line := strings_TrimSpace lib text in
      if String.eqb line "" then
        ((patterns, None), {| sc_lines := rest; sc_err := err |})
      else readPatterns lib rest err (patterns ++ [line])
  end.

(** [ih.GetFilePatterns()]. *)
Definition GetFilePatterns (lib : Lib) (sc : Scanner)
  : (list string * option error) * Scanner :=
  match readPatterns lib (sc_lines sc) (sc_err sc) [] with
  | ((_, Some e), sc') => (([], Some e), sc')
  | ((patterns, None), sc') =>
      if (length patterns =? 0)%nat then ((["*"], None), sc')
      else ((patterns, None), sc')
  end.

(** [ih.GetExcludePatterns()]. *)
Definition GetExcludePatterns (lib : Lib) (sc : Scanner)
  : (list string * option error) * Scanner :=
  readPatterns lib (sc_lines sc) (sc_err sc) [].

(** The loop of [SelectFromList] over the fields of the input; [None] is
    the run-time panic of [files[index-1]] out of range. *)
Fixpoint selectParts (lib : Lib) (files : list FileInfo) (parts : list string)
  (selected : list FileInfo) : option (list FileInfo) :=
  match parts with
  | [] => Some selected
  | part :: rest =>
      match fmt_Sscanf_d lib part with
      | None => selectParts lib files rest selected
      | Some index =>
          if (index <? 1) || (index >? Z.of_nat (length files))
          then selectParts lib files rest selected
          else
            match files !! Z.to_nat (index - 1) with
            | None => None
            | Some file => selectParts lib files rest (selected ++ [file])
            end
      end
  end.

(** [ih.SelectFromList(files)]; [None] is a run-time panic. *)
Definition SelectFromList (lib : Lib) (sc : Scanner) (files : list FileInfo)
  : option ((list FileInfo * option error) * Scanner) :=
  if (length files =? 0)%nat then Some ((files, None), sc)
  else
    match Scan sc with
    | None =>
        match sc_err sc with
        | Some e => Some (([], Some (Errorf "failed to read input" e)), sc)
        | None => Some (([], Some (ErrOS "no input received")), sc)
        end
    | Some (text, sc') =>
        let input := strings_TrimSpace lib text in
        if String.eqb input "" || String.eqb input "a" || String.eqb input "all"
        then Some ((files, None), sc')
        else
          match selectParts lib files (strings_Fields lib input) [] with
          | None => None
          | Some selected => Some ((selected, None), sc')
          end
    end.

End interactive.

(** ** Package clipboard *)

Module clipboard.

(** The system under the clipboard: [runtime.GOOS], whether
    [exec.LookPath] finds a program, what [cmd.Run()] returns for a
    command line and its standard input, the GBK encoder ([None] when the
    conversion fails), and [os.Create] and [file.WriteString] on a file
    name. *)
Record Env : Type := {
  GOOS : string;
  exec_LookPath : string -> bool;
  cmd_Run : list string -> string -> option error;
  GBK_String : string -> option string;
  os_Create : string -> option error;
  file_WriteString : string -> string -> option error
}.

(** [CopyToClipboard(text)]. *)
Definition CopyToClipboard (env : Env) (text : string) : option error :=
  let run (cmd : list string) (stdin : string) :=
    match cmd_Run env cmd stdin with
    | Some err => Some (Errorf "failed to copy to clipboard" err)
    | None => None
    end in
  if String.eqb (GOOS env) "windows" then
    run ["clip"] (default text (GBK_String env text))
  else if String.eqb (GOOS env) "darwin" then
    run ["pbcopy"] text
  else if String.eqb (GOOS env) "linux" then
    if exec_LookPath env "xclip" then
      run ["xclip"; "-selection"; "clipboard"] text
    else if exec_LookPath env "xsel" then
      run ["xsel"; "--clipboard"; "--input"] text
    else Some (ErrOS "no clipboard utility found (install xclip or xsel)")
  else Some (ErrOS ("unsupported operating system: " +:+ GOOS env)).

(** [IsClipboardSupported()]. *)
Definition IsClipboardSupported (env : Env) : bool :=
  if String.eqb (GOOS env) "windows" then exec_LookPath env "clip"
  else if String.eqb (GOOS env) "darwin" then exec_LookPath env "pbcopy"
  else if String.eqb (GOOS env) "linux" then
    exec_LookPath env "xclip" || exec_LookPath env "xsel"
  else false.

(** [writeToFile(text, filename)]. *)
Definition writeToFile (env : Env) (text filename : string) : option error :=
  match os_Create env filename with
  | Some err => Some (Errorf "failed to create output file" err)
  | None =>
      match file_WriteString env filename text with
      | Some err => Some (Errorf "failed to write to output file" err)
      | None => None
      end
  end.

(** [WriteToOutput(text, output, verbose)]; the messages to [os.Stderr]
    are not modelled. *)
Definition WriteToOutput (env : Env) (text output : string) (verbose : bool)
  : option error :=
  if String.eqb output "" then
    if IsClipboardSupported env then
      match CopyToClipboard env text with
      | Some _ => writeToFile env text "prompt.txt"
      | None => None
      end
    else writeToFile env text "prompt.txt"
  else writeToFile env text output.

End clipboard.

(** ** Package main *)

Module main.

Import selector.

(** The command-line flags, the package variables of [main.go]. *)
Record Flags : Type := {
  files : list string;
  excludes : list string;
  prompt : string;
  interactive_mode : bool;
  output : string;
  configPath : string;
  dryRun : bool;
  maxSize : Z;
  verbose : bool
}.

(** Everything the run depends on. *)
Record Machine : Type := {
  sys : formatter.Sys;
  clip : clipboard.Env;
  conf : config.Env
}.

(** How a function ends: it returns its error, or the run panics. *)
Inductive outcome : Type :=
| Returns (err : option error)
| Panics.

(** [generateOutput(cfg, files)]. *)
Definition generateOutput (m : Machine) (flags : Flags) (cfg : config.Config)
  (files : list FileInfo) : option error :=
  let pf := formatter.New (config.Prompt cfg) files (verbose flags) in
  match formatter.Format (sys m) pf with
  | (_, Some err) => Some (Errorf "failed to format prompt" err)
  | (formattedPrompt, None) =>
      match clipboard.WriteToOutput (clip m) formattedPrompt
              (config.Output cfg) (verbose flags) with
      | Some err => Some (Errorf "failed to write output" err)
      | None => None
      end
  end.

(** [runBatchMode(cfg)]; the dry run prints the summary and returns nil. *)
Definition runBatchMode (m : Machine) (flags : Flags) (cfg : config.Config)
  : option error :=
  let fs := selector.New (config.Files cfg) (config.Exclude cfg)
              (config.MaxFileSize cfg) in
  match SelectFiles (formatter.world (sys m)) fs with
  | (_, Some err) => Some (Errorf "failed to select files" err)
  | (selectedFiles, None) =>
      if (length selectedFiles =? 0)%nat
      then Some (ErrOS "no files found matching the patterns")
      else
        let validFiles := formatter.ValidateFiles (sys m) selectedFiles in
        if (length validFiles =? 0)%nat
        then Some (ErrOS "no valid files found")
        else if dryRun flags then None
        else generateOutput m flags cfg validFiles
  end.

(** The configuration [runCommand] ends up with before it branches on the
    mode: loaded or default, then merged with the flags. *)
Definition mergedConfig (flags : Flags) (cfg : config.Config) : config.Config :=
  let maxSize := if maxSize flags =? 0 then config.MaxFileSize cfg
                 else maxSize flags in
  config.Merge cfg (files flags) (excludes flags) (prompt flags)
    (output flags) maxSize.

(** [runCommand(cmd, args)]; interactive mode is the parameter
    [runInteractiveMode]. *)
Definition runCommand (m : Machine)
  (runInteractiveMode : config.Config -> option error) (flags : Flags)
  : outcome :=
  let loaded :=
    if negb (String.eqb (configPath flags) "")
    then config.LoadConfig (conf m) (configPath flags)
    else (Some config.DefaultConfig, None) in
  match loaded with
  | (_, Some err) => Returns (Some (Errorf "failed to load config" err))
  | (None, None) => Panics
  | (Some cfg, None) =>
      let cfg := mergedConfig flags cfg in
      if interactive_mode flags then Returns (runInteractiveMode cfg)
      else
        let cfg :=
          if (length (config.Files cfg) =? 0)%nat
          then {| config.Files := ["*"];
                  config.Exclude := config.Exclude cfg;
                  config.Prompt := config.Prompt cfg;
                  config.MaxFileSize := config.MaxFileSize cfg;
                  config.Output := config.Output cfg |}
          else cfg in
        Returns (runBatchMode m flags cfg)
  end.

End main.

(** ** A machine to run the program on

    The tree of [demo] on Linux with [xsel] installed, standard input as
    a list of lines, and text functions for single-byte text. *)

Module demo_run.

Import selector.

(** [strings.TrimSpace] over the white space of ASCII. *)
Fixpoint trimLeft (s : string) : string :=
  match s with
  | String c rest => if Ascii.is_space c then trimLeft rest else s
  | EmptyString => s
  end.

Definition TrimSpace (s : string) : string :=
  String.rev (trimLeft (String.rev (trimLeft s))).

(** A stand-in for [fmt.Sscanf(part, "%d", &index)]: it reads the
    non-empty strings of decimal digits and reports an error on every other
    field.  The library also reads a sign and stops at the first byte that
    is no digit. *)
Fixpoint digits (s : string) (acc : Z) : option Z :=
  match s with
  | EmptyString => Some acc
  | String c rest =>
      match Ascii.is_nat c with
      | Some d => digits rest (10 * acc + Z.of_nat d)
      | None => None
      end
  end.

Definition Sscanf_d (part : string) : option Z :=
  match part with
  | EmptyString => None
  | _ => digits part 0
  end.

Definition lib : interactive.Lib :=
  {| interactive.strings_TrimSpace := TrimSpace;
     interactive.strings_Fields := String.words;
     interactive.fmt_Sscanf_d := Sscanf_d |}.

(** The contents of the files of [/w]: [b.txt] holds only a blank line,
    and nothing opens [/w/sub/c.go]. *)
Definition lines (path : string) : list string * option error :=
  if String.eqb path "/w/a.go" then (["package a"; ""; "func A() {}"], None)
  else if String.eqb path "/w/b.txt" then (["  "], None)
  else ([], Some (ErrOS "read error")).

Definition sys : formatter.Sys :=
  {| formatter.world := demo.world;
     formatter.os_Open := λ path,
       if String.eqb path "/w/sub/c.go"
       then Some (ErrOS "permission denied") else None;
     formatter.scan_lines := lines;
     formatter.utf8_ValidString := λ _, true;
     formatter.strings_TrimSpace := TrimSpace;
     formatter.os_Getwd := Some "/w" |}.

Definition clip : clipboard.Env :=
  {| clipboard.GOOS := "linux";
     clipboard.exec_LookPath := λ program, String.eqb program "xsel";
     clipboard.cmd_Run := λ cmd stdin,
       match cmd with
       | "xsel" :: _ => Some (ErrOS "exit status 1")
       | _ => Some (ErrOS "executable file not found in $PATH")
       end;
     clipboard.GBK_String := λ text, Some text;
     clipboard.os_Create := λ filename,
       if String.eqb filename "/etc/out.txt"
       then Some (ErrOS "permission denied") else None;
     clipboard.file_WriteString := λ filename text, None |}.

Definition machine : main.Machine :=
  {| main.sys := sys; main.clip := clip; main.conf := demo.env |}.

(** The flags of [aicodeprep-go -f '**' --dry-run]. *)
Definition flags : main.Flags :=
  {| main.files := ["**"]; main.excludes := []; main.prompt := "";
     main.interactive_mode := false; main.output := "";
     main.configPath := ""; main.dryRun := true; main.maxSize := 0;
     main.verbose := false |}.


(** Standard input: two file patterns, a blank line, one exclude pattern,
    a blank line, and one more line. *)
Definition stdin : interactive.Scanner :=
  {| interactive.sc_lines :=
       [" *.go "; "sub/**"] ++ "" :: ["*_test.go"] ++ " " :: ["y"];
     interactive.sc_err := None |}.

End demo_run.

(** ** The selection typed at the prompt, in the words of its description *)

Module chosen_files.

Import selector interactive.

(** The answers that select every file: an empty line, [a] and [all]. *)
Definition selectsAll (input : string) : bool :=
  bool_decide (input = "" ∨ input = "a" ∨ input = "all").

(** What one field of the answer selects: when [fmt.Sscanf] reads a number
    from it and the number is one of [1 .. len(files)], the file with that
    number, counting from 1; otherwise nothing. *)
Definition chosen (lib : Lib) (files : list FileInfo) (part : string)
  : option FileInfo :=
  match fmt_Sscanf_d lib part with
  | Some index =>
      if bool_decide (1 ≤ index ≤ Z.of_nat (length files))
      then files !! Z.to_nat (index - 1)
      else None
  | None => None
  end.

End chosen_files.

(** * Theorems *)

(** ** Package strings *)

Section StringFacts.

Import strings.

Lemma append_nil_l (s : string) : "" +:+ s = s.
Proof. reflexivity. Qed.

Lemma append_cons (c : ascii) (s t : string) :
  String c s +:+ t = String c (s +:+ t).
Proof. reflexivity. Qed.

Lemma HasPrefix_app (s t : string) : HasPrefix (s +:+ t) s = true.
Proof.
  induction s as [|c s IH]; [reflexivity|].
  rewrite append_cons. simpl. by rewrite Ascii.eqb_refl.
Qed.

Lemma HasPrefix_inv (s p : string) :
  HasPrefix s p = true → ∃ t, s = p +:+ t.
Proof.
  revert s; induction p as [|c p IH]; intros s H; simpl in *.
  - by exists s.
  - destruct s as [|d s]; [done|].
    destruct (Ascii.eqb_spec c d) as [->|]; [|done].
    destruct (IH _ H) as [t ->]. by exists t.
Qed.

Lemma HasPrefix_Contains (s p : string) :
  HasPrefix s p = true → Contains s p = true.
Proof. intros H. destruct s; simpl; by rewrite H. Qed.

Lemma drop_app_length (s t : string) : drop (String.length s) (s +:+ t) = t.
Proof. induction s; simpl; auto. Qed.

Lemma take_app_length (s t : string) : take (String.length s) (s +:+ t) = s.
Proof.
  induction s as [|c s IH]; [done|].
  rewrite append_cons. simpl. by rewrite IH.
Qed.

Lemma length_app (s t : string) :
  String.length (s +:+ t) = (String.length s + String.length t)%nat.
Proof.
  induction s as [|c s IH]; [done|].
  rewrite append_cons. simpl. by rewrite IH.
Qed.

(** [TrimPrefix] removes the prefix from a string that starts with it. *)
Lemma TrimPrefix_app (prefix s : string) : TrimPrefix (prefix +:+ s) prefix = s.
Proof.
  unfold TrimPrefix. by rewrite HasPrefix_app, drop_app_length.
Qed.

(** [TrimSuffix] removes the suffix from a string that ends with it. *)
Lemma TrimSuffix_app (s suffix : string) : TrimSuffix (s +:+ suffix) suffix = s.
Proof.
  unfold TrimSuffix, HasSuffix. rewrite length_app.
  replace (String.length s + String.length suffix - String.length suffix)%nat
    with (String.length s) by lia.
  rewrite drop_app_length, take_app_length, String.eqb_refl.
  by rewrite (proj2 (Nat.leb_le _ _)) by lia.
Qed.

(** [Contains] is the substring relation. *)
Lemma Contains_substring (s sub : string) :
  Contains s sub = true ↔ ∃ l r, s = l +:+ sub +:+ r.
Proof.
  split.
  - induction s as [|c s IH]; simpl; intros H.
    + apply orb_true_iff in H as [H|H]; [|done].
      apply HasPrefix_inv in H as [t ->]. by exists "", t.
    + apply orb_true_iff in H as [H|H].
      * apply HasPrefix_inv in H as [t ->]. by exists "", t.
      * destruct (IH H) as (l & r & ->). by exists (String c l), r.
  - intros (l & r & ->). induction l as [|c l IH].
    + rewrite append_nil_l. apply HasPrefix_Contains, HasPrefix_app.
    + rewrite append_cons. simpl. rewrite IH. apply orb_true_r.
Qed.

(** [Cut] finds a separator exactly when [Contains] does. *)
Lemma Cut_None (s sep : string) :
  Cut s sep = None ↔ Contains s sep = false.
Proof.
  induction s as [|c s IH]; simpl.
  - destruct (HasPrefix "" sep); simpl; split; congruence.
  - destruct (HasPrefix (String c s) sep); simpl; [split; congruence|].
    rewrite <- IH. destruct (Cut s sep) as [[??]|]; split; congruence.
Qed.

(** The split at the first [**]: no [**] starts inside [before]. *)
Lemma Cut_first (before after : string) :
  Contains (before +:+ "*") "**" = false →
  Cut (before +:+ "**" +:+ after) "**" = Some (before, after).
Proof.
  induction before as [|c b IH]; intros H.
  - done.
  - rewrite append_cons in H. cbn [Contains] in H.
    apply orb_false_iff in H as [Hp Hc].
    specialize (IH Hc).
    rewrite append_cons. cbn [Cut]. rewrite IH.
    destruct (HasPrefix (String c (b +:+ "**" +:+ after)) "**") eqn:E;
      [|done].
    exfalso. apply HasPrefix_inv in E as [t E].
    rewrite !append_cons in E. injection E as -> E.
    destruct b as [|d b].
    + revert Hp. change (HasPrefix ("**" +:+ "") "**" = false → False).
      by rewrite HasPrefix_app.
    + rewrite append_cons in E. injection E as -> _.
      revert Hp.
      change (HasPrefix ("**" +:+ (b +:+ "*")) "**" = false → False).
      by rewrite HasPrefix_app.
Qed.

Lemma SplitN2_first (before after : string) :
  Contains (before +:+ "*") "**" = false →
  SplitN2 (before +:+ "**" +:+ after) "**" = [before; after].
Proof. intros H. unfold SplitN2. by rewrite Cut_first. Qed.

Lemma SplitN2_Contains (s sep : string) :
  Contains s sep = true → ∃ before after, SplitN2 s sep = [before; after].
Proof.
  intros H. unfold SplitN2. destruct (Cut s sep) as [[b a]|] eqn:E; [eauto|].
  apply Cut_None in E. congruence.
Qed.

End StringFacts.

(** ** Recursive patterns *)

Section RecursivePatterns.

Import selector selection.

Variable w : World.

(** The callback never returns an error, so neither does the walk. *)
Lemma walkFn_nil (prefix suffix : string) (v : WalkVisit)
  (matches : list string) :
  (walkFn w prefix suffix v matches).2 = None.
Proof.
  unfold walkFn.
  repeat (case_match; simpl; try done).
Qed.

Lemma WalkLoop_walkFn_nil (prefix suffix : string) (visits : list WalkVisit)
  (matches : list string) :
  (WalkLoop (walkFn w prefix suffix) visits matches).2 = None.
Proof.
  revert matches; induction visits as [|v visits IH]; intros matches; simpl.
  - done.
  - pose proof (walkFn_nil prefix suffix v matches) as Hv.
    destruct (walkFn w prefix suffix v matches) as [s' [e|]]; simpl in *.
    + done.
    + apply IH.
Qed.

Lemma expandRecursiveGlob_nil (pattern : string) :
  strings.Contains pattern "**" = true →
  (expandRecursiveGlob w pattern).2 = None.
Proof.
  intros H. unfold expandRecursiveGlob.
  destruct (SplitN2_Contains _ _ H) as (b & a & ->).
  apply WalkLoop_walkFn_nil.
Qed.

Lemma appendAbs_option (matches : list string) (path : string) :
  appendAbs w matches path = matches ++ option_list (filepath_Abs w path).
Proof.
  unfold appendAbs. destruct (filepath_Abs w path); simpl; [done|].
  by rewrite app_nil_r.
Qed.

Lemma walkFn_emitted (root suffix : string) (v : WalkVisit)
  (matches : list string) :
  (∀ name name', filepath_Match w suffix name = None →
                 filepath_Match w suffix name' ≠ Some true) →
  (walkedFile v = true → is_Some (filepath_Rel w root (wv_path v))) →
  walkFn w root suffix v matches =
    (matches ++ option_list (emitted w root suffix v), None).
Proof.
  intros Hpat Hrel.
  unfold walkFn, emitted, emits, walkedFile, relMatches, globMatches in *.
  destruct (wv_err v); simpl; [by rewrite app_nil_r|].
  destruct (wv_dir v); simpl; [by rewrite app_nil_r|].
  destruct (String.eqb suffix ""); simpl; [by rewrite appendAbs_option|].
  destruct Hrel as [rel ->]; [done|].
  destruct (filepath_Match w suffix rel) as [[|]|] eqn:Hm; simpl.
  - by rewrite appendAbs_option.
  - destruct (filepath_Match w suffix (filepath_Base w (wv_path v)))
      as [[|]|]; simpl; rewrite ?appendAbs_option, ?app_nil_r; done.
  - pose proof (Hpat _ (filepath_Base w (wv_path v)) Hm) as Hbase.
    destruct (filepath_Match w suffix (filepath_Base w (wv_path v)))
      as [[|]|]; simpl; rewrite ?app_nil_r; done.
Qed.

Lemma WalkLoop_emitted (root suffix : string) (visits : list WalkVisit)
  (matches : list string) :
  (∀ name name', filepath_Match w suffix name = None →
                 filepath_Match w suffix name' ≠ Some true) →
  (∀ v, v ∈ visits → walkedFile v = true →
        is_Some (filepath_Rel w root (wv_path v))) →
  WalkLoop (walkFn w root suffix) visits matches =
    (matches ++ omap (emitted w root suffix) visits, None).
Proof.
  intros Hpat. revert matches.
  induction visits as [|v visits IH]; intros matches Hrel; simpl.
  - by rewrite app_nil_r.
  - rewrite (walkFn_emitted root suffix v matches Hpat);
      [|apply Hrel; left].
    rewrite IH; [|intros v' Hv'; apply Hrel; by right].
    f_equal. rewrite <- app_assoc. f_equal.
    by destruct (emitted w root suffix v).
Qed.

(** C1.  A pattern [before ** after], split at its first [**]: with
    [prefix] the text before without one trailing separator, [suffix] the
    text after without one leading separator, and the walk rooted at
    [prefix], or at [.] when [prefix] is empty, recursive expansion
    returns, in walk order, the absolute path of every walked entry that
    is a file (never a directory) and whose suffix test passes: the suffix
    is empty, or the path relative to the root glob-matches it, or the base
    name does.  The library facts used: a suffix on which [filepath.Match]
    reports an error for one name matches no name (whether the error is
    reported may depend on the name), and [filepath.Rel] succeeds from the
    root to a file walked under it. *)
Theorem expandRecursiveGlob_emits (before after : string) :
  let prefix := strings.TrimSuffix before "/" in
  let suffix := strings.TrimPrefix after "/" in
  let root := if String.eqb prefix "" then "." else prefix in
  strings.Contains (before +:+ "*") "**" = false →
  (∀ name name', filepath_Match w suffix name = None →
                 filepath_Match w suffix name' ≠ Some true) →
  (∀ v, v ∈ walk_visits w root → walkedFile v = true →
        is_Some (filepath_Rel w root (wv_path v))) →
  expandRecursiveGlob w (before +:+ "**" +:+ after) =
    (omap (emitted w root suffix) (walk_visits w root), None).
Proof.
  intros prefix suffix root Hfirst Hpat Hrel.
  unfold expandRecursiveGlob. rewrite (SplitN2_first _ _ Hfirst).
  unfold WalkDir. fold prefix suffix root.
  by rewrite (WalkLoop_emitted root suffix _ [] Hpat Hrel).
Qed.

(** ** Recursive exclusion *)

(** C2.  An exclude pattern [before ** after], split at its first [**]
    and trimmed as in include expansion, excludes a path exactly when the
    path contains the prefix as a substring (when the prefix is not empty)
    and its base name glob-matches the suffix (when the suffix is not
    empty); so [vendor/**] excludes [/foo/abcvendor/x]. *)
Theorem matchesRecursiveExclude_rule (path before after : string) :
  let prefix := strings.TrimSuffix before "/" in
  let suffix := strings.TrimPrefix after "/" in
  strings.Contains (before +:+ "*") "**" = false →
  (matchesRecursiveExclude w path (before +:+ "**" +:+ after) = true ↔
     (prefix ≠ "" → ∃ l r, path = l +:+ prefix +:+ r) ∧
     (suffix ≠ "" →
      globMatches w suffix (filepath_Base w path) = true)) ∧
  matchesRecursiveExclude w "/foo/abcvendor/x" "vendor/**" = true.
Proof.
  intros prefix suffix Hfirst. split; [|reflexivity].
  rewrite <- Contains_substring.
  unfold matchesRecursiveExclude. rewrite (SplitN2_first _ _ Hfirst).
  fold prefix suffix. unfold globMatches.
  destruct (String.eqb_spec prefix "") as [Hp|Hp];
    destruct (String.eqb_spec suffix "") as [Hs|Hs]; simpl.
  - split; [intros _; split; intros []; done|done].
  - destruct (filepath_Match w suffix (filepath_Base w path)) as [[|]|];
      simpl; split; try done; intros [_ H]; by apply H.
  - destruct (strings.Contains path prefix); simpl.
    + split; [intros _; split; [done|intros []; done]|done].
    + split; [done|]. intros [H _]. by apply H.
  - destruct (strings.Contains path prefix); simpl.
    + destruct (filepath_Match w suffix (filepath_Base w path)) as [[|]|];
        simpl; split; try done; intros [_ H]; by apply H.
    + split; [done|]. intros [H _]. by apply H.
Qed.

End RecursivePatterns.

(** ** First occurrences *)

Section Nub.

Import selection.

Lemma elem_of_nub (l : list string) (x : string) : x ∈ nub l ↔ x ∈ l.
Proof.
  induction l as [|y l IH]; simpl; [done|].
  rewrite !elem_of_cons, list_elem_of_filter, IH.
  destruct (decide (x = y)); tauto.
Qed.

Lemma NoDup_nub (l : list string) : NoDup (nub l).
Proof.
  induction l as [|y l IH]; simpl; [constructor|].
  apply NoDup_cons. split.
  - rewrite list_elem_of_filter. intros [Hy _]. by apply Hy.
  - by apply NoDup_filter.
Qed.

(** The first occurrence of [x] stays where it is: before it, the first
    occurrences of what precedes it. *)
Lemma nub_first (l1 l2 : list string) (x : string) :
  x ∉ l1 →
  nub (l1 ++ x :: l2) =
    nub l1 ++ x :: filter (λ y, (y ∉ l1) ∧ y ≠ x) (nub l2).
Proof.
  induction l1 as [|y l1 IH]; intros Hx; simpl.
  - f_equal. apply list_filter_iff. intros z.
    split; [intros ?; split; [apply not_elem_of_nil|done]|by intros [_ ?]].
  - apply not_elem_of_cons in Hx as [Hxy Hx].
    rewrite (IH Hx), filter_app, filter_cons_True by done.
    do 3 f_equal. rewrite list_filter_filter.
    apply list_filter_iff. intros z. rewrite not_elem_of_cons. tauto.
Qed.

End Nub.

(** ** The loops of SelectFiles *)

Section Loops.

Import selector selection.

Variable w : World.
Variable fs : FileSelector.

Lemma processed_empty (key : string) : processed ∅ key = false.
Proof. unfold processed. by rewrite lookup_empty. Qed.

Lemma processed_insert (m : gmap string bool) (x key : string) :
  processed (<[x := true]> m) key = processed m key || bool_decide (key = x).
Proof.
  unfold processed. destruct (decide (key = x)) as [->|Hne].
  - rewrite lookup_insert_eq, bool_decide_eq_true_2 by done.
    by rewrite orb_true_r.
  - rewrite lookup_insert_ne, bool_decide_eq_false_2 by done.
    by rewrite orb_false_r.
Qed.

Lemma bool_decide_elem_of_cons (key x : string) (l : list string) :
  bool_decide (key ∈ x :: l) = bool_decide (key = x) || bool_decide (key ∈ l).
Proof. rewrite <- bool_decide_or. apply bool_decide_ext, elem_of_cons. Qed.

(** One candidate: skipped when seen before, otherwise marked as seen and
    kept when it passes the filters. *)
Lemma selectMatch_survivor (files : list FileInfo) (m : gmap string bool)
  (x : string) :
  selectMatch w fs (files, m) x =
    if processed m x then (files, m)
    else (files ++ option_list (survivor w fs x), <[x := true]> m).
Proof.
  unfold selectMatch, survivor.
  destruct (processed m x); [done|].
  destruct (isExcluded w fs x); simpl; [by rewrite app_nil_r|].
  destruct (os_Stat w x) as [info|]; simpl; [|by rewrite app_nil_r].
  destruct (st_regular info); simpl; [|by rewrite app_nil_r].
  destruct ((maxFileSize fs >? 0) && (st_size info >? maxFileSize fs));
    simpl; [by rewrite app_nil_r|done].
Qed.

Lemma foldl_selectMatch (l : list string) :
  ∀ (files : list FileInfo) (m : gmap string bool),
  ∃ m', foldl (selectMatch w fs) (files, m) l =
          (files ++ omap (survivor w fs)
                      (filter (λ x, processed m x = false) (nub l)), m')
        ∧ ∀ key, processed m' key = processed m key || bool_decide (key ∈ l).
Proof.
  induction l as [|x l IH]; intros files m.
  - exists m. cbn [foldl nub]. rewrite filter_nil. cbn [omap list_omap].
    rewrite app_nil_r. split; [done|].
    intros key. rewrite (bool_decide_eq_false_2 (key ∈ []))
      by apply not_elem_of_nil.
    by rewrite orb_false_r.
  - cbn [foldl nub]. rewrite selectMatch_survivor.
    destruct (processed m x) eqn:Hx.
    + destruct (IH files m) as (m' & -> & Hm'). exists m'. split.
      * rewrite filter_cons_False by congruence.
        rewrite list_filter_filter_l; [done|].
        intros y Hy ->. congruence.
      * intros key. rewrite Hm', bool_decide_elem_of_cons.
        destruct (decide (key = x)) as [->|Hne].
        -- by rewrite Hx.
        -- by rewrite (bool_decide_eq_false_2 (key = x)).
    + destruct (IH (files ++ option_list (survivor w fs x))
                  (<[x := true]> m)) as (m' & -> & Hm').
      exists m'. split.
      * f_equal. rewrite filter_cons_True by done.
        rewrite <- app_assoc. f_equal. cbn [omap list_omap].
        rewrite list_filter_filter.
        replace (filter (λ y, processed (<[x:=true]> m) y = false) (nub l))
          with (filter (λ y, processed m y = false ∧ y ≠ x) (nub l)).
        { by destruct (survivor w fs x). }
        apply list_filter_iff. intros y. rewrite processed_insert.
        rewrite orb_false_iff, bool_decide_eq_false. done.
      * intros key. rewrite Hm', processed_insert, <- orb_assoc. f_equal.
        by rewrite bool_decide_elem_of_cons.
Qed.

(** The outer loop, when every pattern expands: the inner loop over all
    the candidates. *)
Lemma selectPatterns_foldl (pats : list string) :
  ∀ st : SelState,
  (∀ p, p ∈ pats → (expandGlob w p).2 = None) →
  selectPatterns w fs pats st =
    ((foldl (selectMatch w fs) st (candidates w pats)).1, None).
Proof.
  induction pats as [|p pats IH]; intros st Hok; [done|].
  cbn [selectPatterns]. unfold candidates. rewrite bind_cons, foldl_app.
  pose proof (Hok p ltac:(left)) as Hp.
  destruct (expandGlob w p) as [matches [e|]]; [done|]. simpl.
  apply IH. intros q Hq. apply Hok. by right.
Qed.

(** The outer loop stops at the first pattern whose expansion fails. *)
Lemma selectPatterns_stops (ps1 ps2 : list string) (p : string) (e : error) :
  ∀ st : SelState,
  (∀ q, q ∈ ps1 → (expandGlob w q).2 = None) →
  (expandGlob w p).2 = Some e →
  selectPatterns w fs (ps1 ++ p :: ps2) st = ([], Some (expandError p e)).
Proof.
  induction ps1 as [|q ps1 IH]; intros st Hok Hp.
  - cbn [app selectPatterns].
    destruct (expandGlob w p) as [matches [e'|]]; simpl in Hp; [|done].
    by injection Hp as ->.
  - cbn [app selectPatterns].
    pose proof (Hok q ltac:(left)) as Hq.
    destruct (expandGlob w q) as [matches [e'|]]; [done|].
    apply IH; [|done]. intros r Hr. apply Hok. by right.
Qed.

(** Expansion fails for a malformed simple glob and for nothing else. *)
Lemma expandGlob_error (pattern : string) (e : error) :
  (expandGlob w pattern).2 = Some e ↔
  malformedSimple w pattern ∧ e = ErrBadPattern.
Proof.
  unfold expandGlob, malformedSimple, simpleGlob, Glob.
  destruct (strings.Contains pattern "**") eqn:Hrec; simpl.
  - rewrite expandRecursiveGlob_nil by done.
    split; [done|]. by intros [[? _] _].
  - destruct (filepath_Glob w pattern); simpl.
    + split; [done|]. by intros [[_ ?] _].
    + split; [by intros [= <-]|by intros [_ ->]].
Qed.

Lemma expandGlob_nil (pattern : string) :
  (expandGlob w pattern).2 = None ↔ ¬ malformedSimple w pattern.
Proof.
  destruct (expandGlob w pattern).2 as [e|] eqn:E.
  - apply expandGlob_error in E as [? _]. split; [done|tauto].
  - split; [|done]. intros _ Hbad.
    assert ((expandGlob w pattern).2 = Some ErrBadPattern) as E'
      by by apply expandGlob_error.
    congruence.
Qed.

Lemma malformedSimple_dec (pattern : string) :
  Decision (malformedSimple w pattern).
Proof. unfold malformedSimple. apply _. Defined.

(** Either every pattern expands, or there is a first one that does not. *)
Lemma first_malformed (pats : list string) :
  (∀ p, p ∈ pats → ¬ malformedSimple w p) ∨
  (∃ ps1 p ps2, pats = ps1 ++ p :: ps2 ∧
                (∀ q, q ∈ ps1 → ¬ malformedSimple w q) ∧
                malformedSimple w p).
Proof.
  induction pats as [|p pats IH].
  - left. intros p Hp. by apply elem_of_nil in Hp.
  - destruct (malformedSimple_dec p) as [Hbad|Hgood].
    + right. exists [], p, pats. split; [done|]. split; [|done].
      intros q Hq. by apply elem_of_nil in Hq.
    + destruct IH as [IH|(ps1 & q & ps2 & -> & Hps1 & Hq)].
      * left. intros q [->|Hq]%elem_of_cons; auto.
      * right. exists (p :: ps1), q, ps2. split; [done|]. split; [|done].
        intros r [->|Hr]%elem_of_cons; auto.
Qed.

Lemma SelectFiles_patterns :
  SelectFiles w fs = selectPatterns w fs (effectivePatterns fs) ([], ∅).
Proof. unfold SelectFiles, effectivePatterns. by destruct (patterns fs). Qed.

(** A run in which every pattern expands: the survivors of the first
    occurrences of the candidates. *)
Lemma SelectFiles_survivors :
  (∀ p, p ∈ effectivePatterns fs → ¬ malformedSimple w p) →
  SelectFiles w fs =
    (omap (survivor w fs) (nub (candidates w (effectivePatterns fs))), None).
Proof.
  intros Hok. rewrite SelectFiles_patterns, selectPatterns_foldl.
  - destruct (foldl_selectMatch (candidates w (effectivePatterns fs)) [] ∅)
      as (m' & -> & _).
    simpl. do 2 f_equal.
    induction (nub _) as [|x l IH]; [done|].
    by rewrite filter_cons_True, IH by apply processed_empty.
  - intros p Hp. by apply expandGlob_nil, Hok.
Qed.

(** A run with a malformed simple glob: the error of the first one. *)
Lemma SelectFiles_stops (ps1 ps2 : list string) (p : string) :
  effectivePatterns fs = ps1 ++ p :: ps2 →
  (∀ q, q ∈ ps1 → ¬ malformedSimple w q) →
  malformedSimple w p →
  SelectFiles w fs = ([], Some (expandError p ErrBadPattern)).
Proof.
  intros Heq Hps1 Hp. rewrite SelectFiles_patterns, Heq.
  apply selectPatterns_stops.
  - intros q Hq. by apply expandGlob_nil, Hps1.
  - by apply expandGlob_error.
Qed.

End Loops.

(** ** SelectFiles *)

Section SelectFilesFacts.

Import selector selection.

Variable w : World.

Lemma survivor_Path (fs : FileSelector) (P : string) (f : FileInfo) :
  survivor w fs P = Some f → Path f = P.
Proof.
  unfold survivor. intros H.
  repeat (case_match; try done). by injection H as <-.
Qed.

Lemma paths_survivors (fs : FileSelector) (l : list string) :
  paths (omap (survivor w fs) l) =
    filter (λ P, is_Some (survivor w fs P)) l.
Proof.
  unfold paths. induction l as [|x l IH]; [done|].
  cbn [omap list_omap]. destruct (survivor w fs x) as [f|] eqn:E.
  - rewrite filter_cons_True by eauto.
    rewrite fmap_cons, IH. f_equal. by eapply survivor_Path.
  - rewrite filter_cons_False; [done|]. intros [? ?]. congruence.
Qed.

Lemma isExcludedBy_true (excl : list string) (P : string) :
  isExcludedBy w excl P = true ↔
  ∃ exclude, exclude ∈ excl ∧ excludeMatches w P exclude = true.
Proof.
  induction excl as [|e excl IH]; simpl.
  - split; [done|]. intros (? & H & _). by apply elem_of_nil in H.
  - destruct (excludeMatches w P e) eqn:E.
    + split; [|done]. intros _. exists e. split; [left|done].
    + rewrite IH. split.
      * intros (x & Hx & Hm). exists x. split; [by right|done].
      * intros (x & [->|Hx]%elem_of_cons & Hm); [congruence|eauto].
Qed.

(** Every returned entry is the survivor of a candidate. *)
Lemma SelectFiles_files (fs : FileSelector) (f : FileInfo) :
  f ∈ (SelectFiles w fs).1 →
  Path f ∈ candidates w (effectivePatterns fs) ∧
  survivor w fs (Path f) = Some f.
Proof.
  destruct (first_malformed w (effectivePatterns fs))
    as [Hok|(ps1 & p & ps2 & Heq & Hps1 & Hp)].
  - rewrite (SelectFiles_survivors w fs Hok). simpl.
    intros (P & HP & Hs)%list_elem_of_omap.
    rewrite (survivor_Path _ _ _ Hs). split; [|done].
    by apply elem_of_nub.
  - rewrite (SelectFiles_stops w fs _ _ _ Heq Hps1 Hp). simpl.
    intros H. by apply elem_of_nil in H.
Qed.

Lemma occurrences_NoDup (P : string) (l : list string) :
  NoDup l →
  length (filter (λ y, y = P) l) = if decide (P ∈ l) then 1%nat else 0%nat.
Proof.
  induction 1 as [|x l Hx Hl IH]; [done|].
  destruct (decide (x = P)) as [->|Hne].
  - rewrite filter_cons_True, decide_True by (done || left).
    simpl. f_equal. rewrite IH. by rewrite decide_False.
  - rewrite filter_cons_False, IH by done.
    apply decide_ext. rewrite elem_of_cons. intuition congruence.
Qed.

(** C3.  [SelectFiles] returns an error exactly when some include pattern
    in force is a simple glob (no [**]) that [filepath.Glob] rejects as
    malformed; the error then wraps [ErrBadPattern] under the name of such
    a pattern and no file is returned.  Nothing else is an error: a
    recursive pattern expands without error whatever the walk reports, and
    failing stats, entries that are not regular files and oversized files
    only drop candidates. *)
Theorem SelectFiles_error_iff (fs : FileSelector) :
  ((∃ e, (SelectFiles w fs).2 = Some e) ↔
   ∃ p, p ∈ effectivePatterns fs ∧ malformedSimple w p) ∧
  (∀ e, (SelectFiles w fs).2 = Some e →
        (SelectFiles w fs).1 = [] ∧
        ∃ p, p ∈ effectivePatterns fs ∧ malformedSimple w p ∧
             e = expandError p ErrBadPattern) ∧
  (∀ pattern, simpleGlob pattern = false →
              (expandGlob w pattern).2 = None).
Proof.
  assert (∀ e, (SelectFiles w fs).2 = Some e →
               (SelectFiles w fs).1 = [] ∧
               ∃ p, p ∈ effectivePatterns fs ∧ malformedSimple w p ∧
                    e = expandError p ErrBadPattern) as Herr.
  { intros e He.
    destruct (first_malformed w (effectivePatterns fs))
      as [Hok|(ps1 & p & ps2 & Heq & Hps1 & Hp)].
    - by rewrite (SelectFiles_survivors w fs Hok) in He.
    - rewrite (SelectFiles_stops w fs _ _ _ Heq Hps1 Hp) in He |- *.
      simpl in *. injection He as <-. split; [done|].
      exists p. rewrite Heq, elem_of_app, elem_of_cons. auto. }
  split; [split|split; [done|]].
  - intros [e He]. destruct (Herr e He) as (_ & p & ? & ? & _). eauto.
  - intros (p & Hin & Hp).
    destruct (first_malformed w (effectivePatterns fs))
      as [Hok|(ps1 & q & ps2 & Heq & Hps1 & Hq)].
    + by destruct (Hok p Hin).
    + rewrite (SelectFiles_stops w fs _ _ _ Heq Hps1 Hq). simpl. eauto.
  - intros pattern Hrec. apply expandGlob_nil.
    unfold malformedSimple. intros [? _]. congruence.
Qed.

(** C4, amended.  A run of [SelectFiles] ends in one of two ways, and
    which one is decided by the include patterns in force alone.  Call a
    pattern a malformed simple glob when it has no [**] and
    [filepath.Glob] rejects it.  If no pattern is one, the run returns its
    list of files, possibly empty, and no error.  Otherwise the first
    pattern that is one aborts the whole selection: the run returns no
    file, not even one matched by an earlier pattern, and the error that
    names this pattern, whatever the patterns after it are.  One of the
    two cases always holds, so nothing else is an error; and a pattern
    with [**] is never a malformed simple glob and expands without error,
    whatever follows its [**]. *)
Theorem SelectFiles_first_malformed_aborts (fs : FileSelector) :
  ((∀ p, p ∈ effectivePatterns fs → ¬ malformedSimple w p) →
   (SelectFiles w fs).2 = None) ∧
  (∀ ps1 p ps2,
     effectivePatterns fs = ps1 ++ p :: ps2 →
     (∀ q, q ∈ ps1 → ¬ malformedSimple w q) →
     malformedSimple w p →
     SelectFiles w fs = ([], Some (expandError p ErrBadPattern))) ∧
  ((∀ p, p ∈ effectivePatterns fs → ¬ malformedSimple w p) ∨
   (∃ ps1 p ps2, effectivePatterns fs = ps1 ++ p :: ps2 ∧
                 (∀ q, q ∈ ps1 → ¬ malformedSimple w q) ∧
                 malformedSimple w p)) ∧
  (∀ p, simpleGlob p = false →
        ¬ malformedSimple w p ∧ (expandGlob w p).2 = None).
Proof.
  split; [|split; [|split]].
  - intros Hok. by rewrite (SelectFiles_survivors w fs Hok).
  - intros ps1 p ps2 Heq Hps1 Hp.
    by apply (SelectFiles_stops w fs ps1 ps2 p).
  - apply first_malformed.
  - intros p Hrec.
    assert (¬ malformedSimple w p) as Hp.
    { unfold malformedSimple. intros [? _]. congruence. }
    split; [done|]. by apply expandGlob_nil.
Qed.

(** C5, amended.  In a run without error the returned paths are the first
    occurrences of the candidates, in candidate order, that pass the
    exclusion, stat, file-type and size filters.  So a path occurs at most
    once, it occurs exactly when it is a candidate that passes the filters,
    and it then stands where its first match puts it: after the kept first
    occurrences of the candidates before that match, and before those of
    the candidates after it. *)
Theorem SelectFiles_dedup (fs : FileSelector) (files : list FileInfo) :
  SelectFiles w fs = (files, None) →
  let cands := candidates w (effectivePatterns fs) in
  let kept := λ P, is_Some (survivor w fs P) in
  paths files = filter kept (nub cands) ∧
  (∀ P, occurrences P files =
        if decide (P ∈ cands ∧ kept P) then 1%nat else 0%nat) ∧
  (∀ l1 l2 P, cands = l1 ++ P :: l2 → P ∉ l1 → kept P →
     paths files =
       filter kept (nub l1) ++
       P :: filter kept (filter (λ y, (y ∉ l1) ∧ y ≠ P) (nub l2))).
Proof.
  intros Hrun cands kept.
  assert (paths files = filter kept (nub cands)) as Hpaths.
  { destruct (first_malformed w (effectivePatterns fs))
      as [Hok|(ps1 & p & ps2 & Heq & Hps1 & Hp)].
    - rewrite (SelectFiles_survivors w fs Hok) in Hrun.
      injection Hrun as <-. apply paths_survivors.
    - by rewrite (SelectFiles_stops w fs _ _ _ Heq Hps1 Hp) in Hrun. }
  split; [done|split].
  - intros P. unfold occurrences. rewrite Hpaths.
    rewrite occurrences_NoDup by apply NoDup_filter, NoDup_nub.
    apply decide_ext. rewrite list_elem_of_filter, elem_of_nub. tauto.
  - intros l1 l2 P Hsplit HP Hkept.
    rewrite Hpaths, Hsplit, nub_first, filter_app by done.
    by rewrite filter_cons_True.
Qed.

(** C6.  A path that some exclude pattern matches is never returned. *)
Theorem SelectFiles_excluded (fs : FileSelector) (P exclude : string) :
  exclude ∈ excludes fs →
  excludeMatches w P exclude = true →
  P ∉ paths (SelectFiles w fs).1.
Proof.
  intros Hin Hm (f & -> & Hf)%list_elem_of_fmap.
  apply SelectFiles_files in Hf as [_ Hs].
  assert (isExcluded w fs (Path f) = true) as Hex
    by (apply isExcludedBy_true; eauto).
  unfold survivor in Hs. by rewrite Hex in Hs.
Qed.

(** C7.  Every returned entry carries the size [os.Stat] reports for its
    path, and that size is at most [maxFileSize] when [maxFileSize] is
    positive.  When [maxFileSize] is zero or negative, a run without error
    returns every first occurrence of a candidate that is not excluded and
    is a regular file, whatever its size. *)
Theorem SelectFiles_sizes (fs : FileSelector) :
  (∀ f, f ∈ (SelectFiles w fs).1 →
        ∃ info, os_Stat w (Path f) = Some info ∧
                Size f = st_size info ∧
                (maxFileSize fs > 0 → Size f ≤ maxFileSize fs)) ∧
  (maxFileSize fs ≤ 0 →
   ∀ files, SelectFiles w fs = (files, None) →
            files = omap (survivorAnySize w fs)
                      (nub (candidates w (effectivePatterns fs)))).
Proof.
  split.
  - intros f [_ Hs]%SelectFiles_files. unfold survivor in Hs.
    destruct (isExcluded w fs (Path f)); [done|].
    destruct (os_Stat w (Path f)) as [info|]; [|done].
    destruct (st_regular info); [|done].
    destruct (maxFileSize fs >? 0) eqn:Hmax; simpl in Hs.
    + destruct (st_size info >? maxFileSize fs) eqn:Hsize; [done|].
      injection Hs as <-. exists info. simpl. repeat split; lia.
    + injection Hs as <-. exists info. simpl. repeat split; lia.
  - intros Hmax files Hrun.
    destruct (first_malformed w (effectivePatterns fs))
      as [Hok|(ps1 & p & ps2 & Heq & Hps1 & Hp)].
    + rewrite (SelectFiles_survivors w fs Hok) in Hrun.
      injection Hrun as <-. apply list_omap_ext, Forall2_same_length_lookup_2.
      { done. }
      intros i x y Hx Hy. assert (x = y) as -> by congruence.
      unfold survivor, survivorAnySize.
      replace (maxFileSize fs >? 0) with false by lia. done.
    + by rewrite (SelectFiles_stops w fs _ _ _ Heq Hps1 Hp) in Hrun.
Qed.

(** C8.  With no include pattern, [SelectFiles] is [SelectFiles] on the
    single pattern ["*"], under the same excludes and size ceiling. *)
Theorem SelectFiles_empty_patterns (excl : list string) (maxSize : Z) :
  SelectFiles w (New [] excl maxSize) = SelectFiles w (New ["*"] excl maxSize)
  ∧ SelectFiles w (New [] [] 0) = SelectFiles w (New ["*"] [] 0).
Proof. split; reflexivity. Qed.

End SelectFilesFacts.

(** ** The configuration *)

Section ConfigFacts.

Import config.

(** C9.  [LoadConfig] returns the default configuration and no error when
    opening the file fails because it does not exist.  When opening fails
    for another reason, or reading the open file fails, or the bytes do
    not parse as YAML, it returns no configuration and an error that says
    which step failed and wraps its cause. *)
Theorem LoadConfig_outcomes (env : Env) (path : string) :
  (∀ err, os_Open env path = inr err → IsNotExist err = true →
          LoadConfig env path = (Some DefaultConfig, None)) ∧
  (∀ err, os_Open env path = inr err → IsNotExist err = false →
          LoadConfig env path =
            (None, Some (Errorf "failed to open config file" err))) ∧
  (∀ file err, os_Open env path = inl file →
               io_ReadAll env file = inr err →
          LoadConfig env path =
            (None, Some (Errorf "failed to read config file" err))) ∧
  (∀ file data err, os_Open env path = inl file →
                    io_ReadAll env file = inl data →
                    yaml_Unmarshal env data DefaultConfig = inr err →
          LoadConfig env path =
            (None, Some (Errorf "failed to parse config file" err))).
Proof.
  unfold LoadConfig. repeat split.
  - intros err -> ->. done.
  - intros err -> ->. done.
  - intros file err -> ->. done.
  - intros file data err -> -> ->. done.
Qed.

(** Every combination of empty and non-empty arguments of [Merge]. *)
Ltac merge_cases c' :=
  unfold c', Merge;
  repeat match goal with
         | |- context [length ?l] => is_var l; destruct l
         | |- context [String.eqb ?s ""] => destruct (String.eqb s "")
         | |- context [?n >? 0] => destruct (n >? 0)
         end;
  simpl; rewrite ?app_nil_r; done.

(** C10.  The default configuration has the exclude patterns [vendor/**],
    [node_modules/**] and [.git/**] and a size ceiling of 1,048,576 bytes.
    [Merge] appends the given files and exclude patterns to the lists it
    finds, replaces the prompt and the output only by a non-empty value and
    the size ceiling only by a positive one; so an exclude pattern of the
    configuration is still there after the merge, and a merge of empty
    lists, empty strings and a ceiling that is not positive changes
    nothing. *)
Theorem Merge_frame :
  (Exclude DefaultConfig = ["vendor/**"; "node_modules/**"; ".git/**"] ∧
   MaxFileSize DefaultConfig = 1048576) ∧
  (∀ c files exclude prompt output maxFileSize,
     let c' := Merge c files exclude prompt output maxFileSize in
     Files c' = Files c ++ files ∧
     Exclude c' = Exclude c ++ exclude ∧
     Prompt c' = (if String.eqb prompt "" then Prompt c else prompt) ∧
     Output c' = (if String.eqb output "" then Output c else output) ∧
     MaxFileSize c' =
       (if maxFileSize >? 0 then maxFileSize else MaxFileSize c) ∧
     (∀ e, e ∈ Exclude c → e ∈ Exclude c')) ∧
  (∀ c maxFileSize, maxFileSize ≤ 0 → Merge c [] [] "" "" maxFileSize = c).
Proof.
  split; [done|split].
  - intros c files exclude prompt output maxFileSize c'.
    assert (Exclude c' = Exclude c ++ exclude) as Hex by merge_cases c'.
    repeat split; [merge_cases c' | done | merge_cases c'..|].
    + intros e He. rewrite Hex. apply elem_of_app. by left.
  - intros c maxFileSize Hmax. unfold Merge. simpl.
    replace (maxFileSize >? 0) with false by lia. done.
Qed.

End ConfigFacts.

(** ** The theorems at work in the world [demo] *)

Section Demo.

Import selector selection.

(** The matcher of [demo] rejects a pattern whatever the name. *)
Lemma demo_Match_pattern (pattern name name' : string) :
  demo.Match pattern name = None → demo.Match pattern name' = None.
Proof.
  unfold demo.Match.
  by destruct (demo.parsePattern _ (list_ascii_of_string pattern)).
Qed.

(** So a pattern it rejects on one name matches no name. *)
Lemma demo_Match_no_match (pattern name name' : string) :
  demo.Match pattern name = None → demo.Match pattern name' ≠ Some true.
Proof.
  intros H. by rewrite (demo_Match_pattern pattern name name' H).
Qed.

(** From the working directory every path is relative to it. *)
Lemma demo_Rel_cwd (targpath : string) : is_Some (demo.Rel "." targpath).
Proof. unfold demo.Rel. destruct (String.eqb "." targpath); eauto. Qed.

Lemma demo_malformed : malformedSimple demo.world "[".
Proof. split; reflexivity. Qed.

(** Runs of the selector in [/w]. *)
Example select_star_without_txt :
  SelectFiles demo.world (New ["*"] ["*.txt"] 0) =
    ([ {| Path := "/w/a.go"; Size := 100 |} ], None).
Proof. reflexivity. Qed.

Example select_all_under_1000 :
  SelectFiles demo.world (New ["**"] [] 1000) =
    ([ {| Path := "/w/a.go"; Size := 100 |};
       {| Path := "/w/b.txt"; Size := 50 |} ], None).
Proof. reflexivity. Qed.

Example select_sub_then_all :
  paths (SelectFiles demo.world (New ["sub/**/*.go"; "**"] [] 0)).1 =
    ["/w/sub/c.go"; "/w/a.go"; "/w/b.txt"].
Proof. reflexivity. Qed.

(** [**/*.go] in [/w]: the two Go files, [sub/c.go] by its base name. *)
Lemma expandRecursiveGlob_emits_witness :
  expandRecursiveGlob demo.world "**/*.go" =
    (["/w/a.go"; "/w/sub/c.go"], None).
Proof.
  exact (eq_trans
           (expandRecursiveGlob_emits demo.world "" "/*.go" eq_refl
              (demo_Match_no_match "*.go")
              (λ v _ _, demo_Rel_cwd (wv_path v)))
           eq_refl).
Defined.

(** [vendor/**] excludes [/foo/abcvendor/x]: the prefix [vendor] occurs
    inside the path. *)
Lemma matchesRecursiveExclude_rule_witness :
  matchesRecursiveExclude demo.world "/foo/abcvendor/x" "vendor/**" = true.
Proof.
  apply (proj1 (matchesRecursiveExclude_rule demo.world
                  "/foo/abcvendor/x" "vendor/" "" eq_refl)).
  split; [|intros H; by destruct H].
  intros _. by exists "/foo/abc", "/x".
Defined.

(** The malformed simple glob [[] makes the run an error. *)
Lemma SelectFiles_error_iff_witness :
  ∃ e, (SelectFiles demo.world (New ["*.go"; "["; "*"] [] 0)).2 = Some e.
Proof.
  apply (proj1 (SelectFiles_error_iff demo.world
                  (New ["*.go"; "["; "*"] [] 0))).
  exists "[". split; [|exact demo_malformed].
  apply list_elem_of_further, list_elem_of_here.
Defined.

(** [*.go] expands, [[] does not: the run stops there, [a.go] is not
    returned and [*] is never expanded.  The recursive [**/[] expands
    without error. *)
Lemma SelectFiles_first_malformed_aborts_witness :
  SelectFiles demo.world (New ["*.go"; "["; "*"] [] 0) =
    ([], Some (expandError "[" ErrBadPattern)) ∧
  (expandGlob demo.world "**/[").2 = None.
Proof.
  pose proof (SelectFiles_first_malformed_aborts demo.world
                (New ["*.go"; "["; "*"] [] 0)) as (_ & Hstop & _ & Hrec).
  split.
  - apply (Hstop ["*.go"] "[" ["*"]); [done| |exact demo_malformed].
    intros q Hq [_ Hbad]. apply list_elem_of_singleton in Hq as ->.
    discriminate Hbad.
  - by apply (Hrec "**/[").
Defined.

(** With [**/[] in place of [[] the run goes on to [*]. *)
Example select_recursive_malformed_suffix :
  SelectFiles demo.world (New ["**/["; "*"] [] 0) =
    ([ {| Path := "/w/a.go"; Size := 100 |};
       {| Path := "/w/b.txt"; Size := 50 |} ], None).
Proof. reflexivity. Qed.

(** The malformed [[] before [*]: the run returns nothing, although [*]
    alone selects [a.go] and [b.txt]. *)
Lemma parse_failure_aborts :
  ¬ continuesPastMalformed demo.world [] "[" ["*"] [] 0.
Proof.
  intros H. specialize (H demo_malformed). vm_compute in H. discriminate H.
Qed.

(** [a.go] matches [*] and [*.go] and is returned once, in first place. *)
Lemma SelectFiles_dedup_witness :
  paths (SelectFiles demo.world (New ["*"; "*.go"] [] 0)).1 =
    ["/w/a.go"; "/w/b.txt"] ∧
  occurrences "/w/a.go"
    (SelectFiles demo.world (New ["*"; "*.go"] [] 0)).1 = 1%nat.
Proof.
  pose proof (SelectFiles_dedup demo.world (New ["*"; "*.go"] [] 0)
                [ {| Path := "/w/a.go"; Size := 100 |};
                  {| Path := "/w/b.txt"; Size := 50 |} ] eq_refl)
    as (Hpaths & Hocc & _).
  split.
  - exact (eq_trans Hpaths eq_refl).
  - exact (eq_trans (Hocc "/w/a.go") eq_refl).
Defined.

(** The directory [/w/sub] matches [*] and [s*], and the file [/w/b.txt]
    matches [*] and [*.txt] and the exclude pattern [*.txt]: neither is
    returned at all. *)
Lemma matched_twice_not_returned :
  ¬ appearsOnceWhenMatchedTwice demo.world (New ["*"; "s*"] [] 0) "/w/sub" ∧
  ¬ appearsOnceWhenMatchedTwice demo.world
      (New ["*"; "*.txt"] ["*.txt"] 0) "/w/b.txt".
Proof.
  split; intros H.
  - assert (matchedTwice demo.world ["*"; "s*"] "/w/sub") as Htwice.
    { exists 0%nat, 1%nat, "*", "s*". repeat split; [done|..].
      - apply list_elem_of_In. vm_compute. tauto.
      - apply list_elem_of_In. vm_compute. tauto. }
    specialize (H Htwice). vm_compute in H. discriminate H.
  - assert (matchedTwice demo.world ["*"; "*.txt"] "/w/b.txt") as Htwice.
    { exists 0%nat, 1%nat, "*", "*.txt". repeat split; [done|..].
      - apply list_elem_of_In. vm_compute. tauto.
      - apply list_elem_of_In. vm_compute. tauto. }
    specialize (H Htwice). vm_compute in H. discriminate H.
Qed.

(** [b.txt] matches the include [*] and the exclude [*.txt]. *)
Lemma SelectFiles_excluded_witness :
  "/w/b.txt" ∉ paths (SelectFiles demo.world (New ["*"] ["*.txt"] 0)).1.
Proof.
  apply (SelectFiles_excluded demo.world (New ["*"] ["*.txt"] 0)
           "/w/b.txt" "*.txt").
  - apply list_elem_of_here.
  - reflexivity.
Defined.

(** Under a ceiling of 1000 bytes [a.go] is returned with its 100 bytes. *)
Lemma SelectFiles_sizes_witness :
  ∃ info, os_Stat demo.world "/w/a.go" = Some info ∧
          100 = st_size info ∧ (1000 > 0 → 100 ≤ 1000).
Proof.
  apply (proj1 (SelectFiles_sizes demo.world (New ["**"] [] 1000))
           {| Path := "/w/a.go"; Size := 100 |}).
  apply list_elem_of_here.
Defined.

(** No file [missing.yaml]: the defaults; [broken.yaml]: an error. *)
Lemma LoadConfig_outcomes_witness :
  config.LoadConfig demo.env "missing.yaml" =
    (Some config.DefaultConfig, None) ∧
  config.LoadConfig demo.env "broken.yaml" =
    (None, Some (Errorf "failed to parse config file"
                   (ErrOS "yaml: did not find expected node content"))).
Proof.
  split.
  - exact (proj1 (LoadConfig_outcomes demo.env "missing.yaml")
             ErrNotExist eq_refl eq_refl).
  - exact (proj2 (proj2 (proj2 (LoadConfig_outcomes demo.env "broken.yaml")))
             4%nat "files: [" _ eq_refl eq_refl eq_refl).
Defined.

(** Merging nothing into the defaults leaves the defaults. *)
Lemma Merge_frame_witness :
  config.Merge config.DefaultConfig [] [] "" "" 0 = config.DefaultConfig.
Proof.
  apply (proj2 (proj2 Merge_frame) config.DefaultConfig 0). lia.
Defined.

End Demo.

(** * Further properties of the selector *)

Section SelectorMore.

Import selector selection.

Variable w : World.

Lemma nub_app (l1 l2 : list string) :
  nub (l1 ++ l2) = nub l1 ++ filter (λ y, y ∉ l1) (nub l2).
Proof.
  induction l1 as [|x l1 IH]; simpl.
  - symmetry. induction (nub l2) as [|y l IHl]; [done|].
    rewrite filter_cons_True by apply not_elem_of_nil. by rewrite IHl.
  - rewrite IH, filter_app, list_filter_filter. do 2 f_equal.
    apply list_filter_iff. intros z. rewrite not_elem_of_cons. tauto.
Qed.

Lemma elem_of_candidates (pats : list string) (P : string) :
  P ∈ candidates w pats ↔ ∃ p, p ∈ pats ∧ P ∈ (expandGlob w p).1.
Proof.
  unfold candidates. rewrite list_elem_of_bind. split.
  - intros (p & ? & ?). eauto.
  - intros (p & ? & ?). eauto.
Qed.

Lemma isExcludedBy_app (excl excl' : list string) (P : string) :
  isExcludedBy w (excl ++ excl') P =
    isExcludedBy w excl P || isExcludedBy w excl' P.
Proof.
  induction excl as [|e excl IH]; simpl; [done|].
  by destruct (excludeMatches w P e).
Qed.

(** A filter after the fact: when [g] is [f] followed by a test on the
    result, mapping with [g] is mapping with [f] and filtering. *)
Lemma omap_then_filter {A B : Type} (f g : A → option B) (keep : B → Prop)
  `{!∀ y, Decision (keep y)} (l : list A) :
  (∀ x, g x = f x ≫= λ y, if decide (keep y) then Some y else None) →
  omap g l = filter keep (omap f l).
Proof.
  intros Hg. induction l as [|x l IH]; [done|].
  cbn [omap list_omap]. rewrite Hg, IH.
  destruct (f x) as [y|]; simpl; [|done].
  rewrite filter_cons. by destruct (decide (keep y)).
Qed.

(** Every path the walk callback adds comes out of [filepath.Abs]. *)
Lemma WalkLoop_Abs (prefix suffix : string) (visits : list WalkVisit) :
  ∀ matches : list string,
  Forall (λ P, ∃ q, filepath_Abs w q = Some P) matches →
  Forall (λ P, ∃ q, filepath_Abs w q = Some P)
    (WalkLoop (walkFn w prefix suffix) visits matches).1.
Proof.
  induction visits as [|v visits IH]; intros matches Hm; [done|].
  cbn [WalkLoop].
  assert (Forall (λ P, ∃ q, filepath_Abs w q = Some P)
            (walkFn w prefix suffix v matches).1) as Hstep.
  { unfold walkFn, appendAbs.
    repeat (case_match; simpl; try done);
      apply Forall_app; split; try done;
      apply Forall_singleton; eauto. }
  pose proof (walkFn_nil w prefix suffix v matches) as Hnil.
  destruct (walkFn w prefix suffix v matches) as [s' [e|]]; [done|].
  by apply IH.
Qed.

Lemma expandGlob_Abs (pattern P : string) :
  P ∈ (expandGlob w pattern).1 → ∃ q, filepath_Abs w q = Some P.
Proof.
  unfold expandGlob.
  destruct (strings.Contains pattern "**") eqn:Hrec.
  - unfold expandRecursiveGlob.
    destruct (SplitN2_Contains _ _ Hrec) as (b & a & ->).
    intros HP. unfold WalkDir in HP.
    match type of HP with
    | _ ∈ (WalkLoop (walkFn _ ?pre ?suf) ?vs []).1 =>
        pose proof (WalkLoop_Abs pre suf vs [] ltac:(constructor)) as Hall
    end.
    rewrite Forall_forall in Hall. exact (Hall P HP).
  - unfold Glob. destruct (filepath_Glob w pattern); simpl.
    + intros (q & _ & Hq)%list_elem_of_omap. eauto.
    + intros H. by apply elem_of_nil in H.
Qed.

(** X1.  A path is excluded exactly when some exclude pattern matches it:
    a pattern with [**] by the recursive rule, any other pattern when the
    base name or the whole path glob-matches it.  A pattern that
    [filepath.Match] rejects as malformed matches nothing and raises
    nothing. *)
Theorem isExcluded_rule (fs : FileSelector) (path : string) :
  (isExcluded w fs path = true ↔
   ∃ exclude, exclude ∈ excludes fs ∧
     if strings.Contains exclude "**"
     then matchesRecursiveExclude w path exclude = true
     else globMatches w exclude (filepath_Base w path) = true ∨
          globMatches w exclude path = true) ∧
  (∀ exclude, strings.Contains exclude "**" = false →
     filepath_Match w exclude (filepath_Base w path) = None →
     filepath_Match w exclude path = None →
     excludeMatches w path exclude = false).
Proof.
  split.
  - unfold isExcluded. rewrite isExcludedBy_true.
    apply exist_proper. intros e. apply and_iff_compat_l.
    unfold excludeMatches, globMatches.
    destruct (strings.Contains e "**"); [done|].
    destruct (filepath_Match w e (filepath_Base w path)) as [[|]|];
      destruct (filepath_Match w e path) as [[|]|];
      intuition congruence.
  - intros e Hrec Hb Hp. unfold excludeMatches. by rewrite Hrec, Hb, Hp.
Qed.

(** X2.  Every returned entry names a path that [filepath.Abs] produced,
    that no exclude pattern matches, and for which [os.Stat] succeeded and
    reported a regular file. *)
Theorem SelectFiles_regular_absolute (fs : FileSelector) (f : FileInfo) :
  f ∈ (SelectFiles w fs).1 →
  (∃ q, filepath_Abs w q = Some (Path f)) ∧
  isExcluded w fs (Path f) = false ∧
  ∃ info, os_Stat w (Path f) = Some info ∧ st_regular info = true.
Proof.
  intros [Hc Hs]%SelectFiles_files. split.
  - apply elem_of_candidates in Hc as (p & _ & HP).
    by eapply expandGlob_Abs.
  - unfold survivor in Hs.
    destruct (isExcluded w fs (Path f)); [done|].
    destruct (os_Stat w (Path f)) as [info|]; [|done].
    destruct (st_regular info) eqn:Hreg; [|done]. eauto.
Qed.

(** The two outcomes of a run, in one equation. *)
Lemma SelectFiles_cases (fs : FileSelector) :
  (SelectFiles w fs =
     (omap (survivor w fs) (nub (candidates w (effectivePatterns fs))), None)
   ∧ ∀ p, p ∈ effectivePatterns fs → ¬ malformedSimple w p) ∨
  (∃ p, p ∈ effectivePatterns fs ∧ malformedSimple w p ∧
        SelectFiles w fs = ([], Some (expandError p ErrBadPattern)) ∧
        ∀ fs', effectivePatterns fs' = effectivePatterns fs →
               SelectFiles w fs' = ([], Some (expandError p ErrBadPattern))).
Proof.
  destruct (first_malformed w (effectivePatterns fs))
    as [Hok|(ps1 & p & ps2 & Heq & Hps1 & Hp)].
  - left. split; [by apply SelectFiles_survivors|done].
  - right. exists p. split; [|split; [done|split]].
    + rewrite Heq, elem_of_app, elem_of_cons. auto.
    + by apply (SelectFiles_stops w fs ps1 ps2 p).
    + intros fs' Hfs'.
      apply (SelectFiles_stops w fs' ps1 ps2 p); [congruence|done..].
Qed.

(** X3.  More exclude patterns only remove entries: with the patterns
    [excl'] added, the run returns the entries of the run without them
    that [excl'] does not exclude, in the same order, and the same
    error. *)
Theorem SelectFiles_more_excludes (pats excl excl' : list string)
  (maxSize : Z) :
  SelectFiles w (New pats (excl ++ excl') maxSize) =
    (filter (λ f, isExcludedBy w excl' (Path f) = false)
       (SelectFiles w (New pats excl maxSize)).1,
     (SelectFiles w (New pats excl maxSize)).2).
Proof.
  destruct (SelectFiles_cases (New pats excl maxSize))
    as [[Hrun Hok]|(p & _ & _ & Hrun & Hall)].
  - rewrite Hrun. simpl. rewrite SelectFiles_survivors by exact Hok.
    f_equal. apply omap_then_filter. intros P.
    unfold survivor, isExcluded. simpl. rewrite isExcludedBy_app.
    destruct (isExcludedBy w excl P); simpl; [done|].
    destruct (isExcludedBy w excl' P) eqn:Hex';
      repeat (case_match; simpl; try done);
      repeat case_decide; simpl in *; congruence.
  - rewrite Hrun, (Hall (New pats (excl ++ excl') maxSize)) by done. done.
Qed.

(** X4.  A positive size ceiling only filters the unlimited run: the run
    with ceiling [maxSize > 0] returns the entries of the run with ceiling
    0 whose size is at most [maxSize], in the same order, and the same
    error. *)
Theorem SelectFiles_ceiling_filters (pats excl : list string) (maxSize : Z) :
  maxSize > 0 →
  SelectFiles w (New pats excl maxSize) =
    (filter (λ f, Size f ≤ maxSize) (SelectFiles w (New pats excl 0)).1,
     (SelectFiles w (New pats excl 0)).2).
Proof.
  intros Hmax.
  destruct (SelectFiles_cases (New pats excl 0))
    as [[Hrun Hok]|(p & _ & _ & Hrun & Hall)].
  - rewrite Hrun. simpl. rewrite SelectFiles_survivors by exact Hok.
    f_equal. apply omap_then_filter. intros P.
    unfold survivor, isExcluded. simpl.
    destruct (isExcludedBy w excl P); simpl; [done|].
    destruct (os_Stat w P) as [info|]; simpl; [|done].
    destruct (st_regular info); simpl; [|done].
    replace (maxSize >? 0) with true by lia. simpl.
    destruct (decide (st_size info ≤ maxSize)) as [Hle|Hgt].
    + by replace (st_size info >? maxSize) with false by lia.
    + by replace (st_size info >? maxSize) with true by lia.
  - rewrite Hrun, (Hall (New pats excl maxSize)) by done. done.
Qed.

(** X5.  Include patterns added at the end only append: when the run
    over [pats ++ more] has no error, its result starts with the result of
    the run over [pats], and every entry after that is a candidate of
    [more] that is no candidate of [pats]. *)
Theorem SelectFiles_append_patterns (pats more excl : list string)
  (maxSize : Z) :
  pats ≠ [] →
  (SelectFiles w (New (pats ++ more) excl maxSize)).2 = None →
  ∃ added,
    (SelectFiles w (New (pats ++ more) excl maxSize)).1 =
      (SelectFiles w (New pats excl maxSize)).1 ++ added ∧
    (SelectFiles w (New pats excl maxSize)).2 = None ∧
    ∀ f, f ∈ added →
         Path f ∈ candidates w more ∧ Path f ∉ candidates w pats.
Proof.
  intros Hne Hrun.
  assert (effectivePatterns (New (pats ++ more) excl maxSize) = pats ++ more)
    as Heff by (unfold effectivePatterns; simpl; by destruct pats).
  assert (effectivePatterns (New pats excl maxSize) = pats)
    as Heff1 by (unfold effectivePatterns; simpl; by destruct pats).
  destruct (SelectFiles_cases (New (pats ++ more) excl maxSize))
    as [[Hall Hok]|(p & _ & _ & Hstop & _)];
    [|by rewrite Hstop in Hrun].
  rewrite Heff in Hall, Hok.
  assert (SelectFiles w (New pats excl maxSize) =
            (omap (survivor w (New pats excl maxSize))
               (nub (candidates w pats)), None)) as Hfirst.
  { rewrite SelectFiles_survivors; rewrite Heff1; [done|].
    intros p Hp. apply Hok, elem_of_app. by left. }
  rewrite Hall, Hfirst. simpl.
  exists (omap (survivor w (New pats excl maxSize))
            (filter (λ y, y ∉ candidates w pats) (nub (candidates w more)))).
  split; [|split; [done|]].
  - unfold candidates at 1. rewrite bind_app. fold (candidates w pats).
    fold (candidates w more). by rewrite nub_app, omap_app.
  - intros f (P & HP & Hs)%list_elem_of_omap.
    apply list_elem_of_filter in HP as [Hnot Hin].
    rewrite elem_of_nub in Hin. rewrite (survivor_Path w _ _ _ Hs).
    by split.
Qed.

(** X6.  Which files are selected depends on the set of include patterns
    only: two pattern lists with the same members, in any order and with
    any repetitions, give runs that both fail or both succeed, and return
    the same entries up to order. *)
Theorem SelectFiles_same_patterns (pats pats' excl : list string)
  (maxSize : Z) :
  (∀ p, p ∈ pats ↔ p ∈ pats') →
  (is_Some (SelectFiles w (New pats excl maxSize)).2 ↔
   is_Some (SelectFiles w (New pats' excl maxSize)).2) ∧
  (∀ f, f ∈ (SelectFiles w (New pats excl maxSize)).1 ↔
        f ∈ (SelectFiles w (New pats' excl maxSize)).1).
Proof.
  intros Hsame.
  assert (∀ p, p ∈ effectivePatterns (New pats excl maxSize) ↔
               p ∈ effectivePatterns (New pats' excl maxSize)) as Heff.
  { unfold effectivePatterns. simpl. destruct pats as [|a pats].
    - destruct pats' as [|b pats']; [done|].
      exfalso. eapply elem_of_nil, Hsame. left.
    - destruct pats' as [|b pats']; [|done].
      exfalso. eapply elem_of_nil, Hsame. left. }
  assert (∀ P, survivor w (New pats excl maxSize) P =
               survivor w (New pats' excl maxSize) P) as Hsurv by done.
  destruct (SelectFiles_cases (New pats excl maxSize))
    as [[Hrun Hok]|(p & Hp & Hbad & Hrun & _)];
    destruct (SelectFiles_cases (New pats' excl maxSize))
      as [[Hrun' Hok']|(p' & Hp' & Hbad' & Hrun' & _)];
    rewrite Hrun, Hrun'; simpl.
  - split; [done|]. intros f.
    rewrite !list_elem_of_omap. apply exist_proper. intros P.
    rewrite !elem_of_nub, !elem_of_candidates, Hsurv.
    apply and_iff_compat_r. apply exist_proper. intros p.
    by rewrite Heff.
  - destruct (Hok p'); [by apply Heff|done].
  - destruct (Hok' p); [by apply Heff|done].
  - split; [|done]. split; eauto.
Qed.

End SelectorMore.

(** * The formatter *)

Section FormatBytes.

Import formatter.

Lemma wrap64_small (z : Z) : - 2 ^ 63 ≤ z < 2 ^ 63 → wrap64 z = z.
Proof. intros H. unfold wrap64. rewrite Z.mod_small; lia. Qed.

Lemma pow1024_pos (k : nat) : 0 < 1024 ^ Z.of_nat k.
Proof. apply Z.pow_pos_nonneg; lia. Qed.

Lemma pow1024_succ (k : nat) :
  1024 ^ Z.of_nat (S k) = 1024 * 1024 ^ Z.of_nat k.
Proof. rewrite Nat2Z.inj_succ, Z.pow_succ_r; lia. Qed.

(** The loop: it stops within the fuel, [div] never wraps, and it has
    multiplied [div] by the power of 1024 that brings [n] below 1024. *)
Lemma scaleLoop_power (fuel : nat) :
  ∀ (n div : Z) (exp : nat),
  1 ≤ n < 1024 ^ Z.of_nat fuel → 0 < div → div * n < 2 ^ 63 →
  ∃ k : nat,
    scaleLoop fuel n div exp = Some (div * 1024 ^ Z.of_nat k, (exp + k)%nat) ∧
    1024 ^ Z.of_nat k ≤ n < 1024 ^ Z.of_nat (S k).
Proof.
  induction fuel as [|fuel IH]; intros n div exp Hn Hdiv Hprod.
  - simpl in Hn. lia.
  - cbn [scaleLoop]. unfold unit. destruct (n >=? 1024) eqn:Hcmp.
    + assert (1024 ≤ n) as Hge by lia.
      rewrite pow1024_succ in Hn.
      pose proof (pow1024_pos fuel) as Hpos.
      rewrite wrap64_small by nia.
      rewrite Z.quot_div_nonneg by lia.
      destruct (IH (n `div` 1024) (div * 1024) (S exp)) as (k & -> & Hk).
      * split; [apply Z.div_le_lower_bound; lia|].
        apply Z.div_lt_upper_bound; lia.
      * lia.
      * pose proof (Z.mul_div_le n 1024 ltac:(lia)). nia.
      * exists (S k). split.
        -- rewrite pow1024_succ. do 2 f_equal; lia.
        -- rewrite !pow1024_succ in *.
           pose proof (Z.mul_div_le n 1024 ltac:(lia)).
           pose proof (Z.mul_succ_div_gt n 1024 ltac:(lia)). lia.
    + exists 0%nat. split.
      * simpl. do 2 f_equal; [lia|]. by rewrite Nat.add_0_r.
      * simpl. lia.
Qed.

(** X7.  For every [int64] byte count [formatBytes] returns without a
    panic: a count below 1024 is printed as it is, and a count from 1024
    on is scaled by [1024^(k+1)] with the [k]-th letter of [KMGTPE], where
    [k] is at most 5, the divisor has not wrapped around, and the scaled
    value lies in [[1, 1024)]. *)
Theorem formatBytes_scale (bytes : Z) :
  - 2 ^ 63 ≤ bytes < 2 ^ 63 →
  (bytes < 1024 → formatBytes bytes = Some (PlainBytes bytes)) ∧
  (1024 ≤ bytes →
   ∃ (k : nat) (letter : ascii),
     (k ≤ 5)%nat ∧ String.get k "KMGTPE" = Some letter ∧
     formatBytes bytes =
       Some (ScaledBytes bytes (1024 ^ Z.of_nat (S k)) letter) ∧
     1024 ^ Z.of_nat (S k) ≤ bytes < 1024 * 1024 ^ Z.of_nat (S k)).
Proof.
  intros Hrange. unfold formatBytes, unit. split.
  - intros Hlt. by replace (bytes <? 1024) with true by lia.
  - intros Hge. replace (bytes <? 1024) with false by lia.
    rewrite Z.quot_div_nonneg by lia.
    pose proof (Z.mul_div_le bytes 1024 ltac:(lia)) as Hlo.
    pose proof (Z.mul_succ_div_gt bytes 1024 ltac:(lia)) as Hhi.
    destruct (scaleLoop_power 64 (bytes `div` 1024) 1024 0)
      as (k & -> & Hk); [split; [lia|]|lia|lia|].
    { apply Z.div_lt_upper_bound; [lia|].
      change (Z.of_nat 64) with 64. lia. }
    rewrite pow1024_succ in Hk. pose proof (pow1024_pos k) as Hpos.
    assert (k ≤ 5)%nat as Hk5.
    { destruct (decide (k ≤ 5)%nat) as [|Hbig]; [done|exfalso].
      assert (1024 ^ 6 ≤ 1024 ^ Z.of_nat k)
        by (apply Z.pow_le_mono_r; lia).
      lia. }
    assert (∃ letter, String.get k "KMGTPE" = Some letter) as [letter Hl].
    { do 6 (destruct k as [|k]; [simpl; eauto|]). lia. }
    exists k, letter. simpl Nat.add. rewrite Hl.
    rewrite pow1024_succ. repeat split; try done; lia.
Qed.

End FormatBytes.

Section FormatterFacts.

Import selector selection formatter.

Variable sys : Sys.

Lemma ValidateFiles_filter (files : list FileInfo) :
  ValidateFiles sys files = filter (λ f, validFile sys f = true) files.
Proof.
  induction files as [|f files IH]; [done|].
  cbn [ValidateFiles]. rewrite filter_cons, IH.
  destruct (validFile sys f);
    [by rewrite decide_True|by rewrite decide_False].
Qed.

Lemma filter_ext_in {A : Type} (P Q : A → Prop)
  `{!∀ x, Decision (P x), !∀ x, Decision (Q x)} (l : list A) :
  (∀ x, x ∈ l → (P x ↔ Q x)) → filter P l = filter Q l.
Proof.
  induction l as [|x l IH]; intros Hall; [done|].
  rewrite !filter_cons, IH by (intros y Hy; apply Hall; by right).
  apply decide_ext, Hall. left.
Qed.

(** X8.  [ValidateFiles] keeps, in order, the entries that stat as regular
    files and open; so it returns a sublist of its argument, and validating
    a validated list changes nothing. *)
Theorem ValidateFiles_sublist (files : list FileInfo) :
  ValidateFiles sys files `sublist_of` files ∧
  (∀ f, f ∈ ValidateFiles sys files ↔
        f ∈ files ∧
        (∃ info, os_Stat (world sys) (Path f) = Some info ∧
                 st_regular info = true) ∧
        os_Open sys (Path f) = None) ∧
  ValidateFiles sys (ValidateFiles sys files) = ValidateFiles sys files.
Proof.
  rewrite !ValidateFiles_filter. split; [apply sublist_filter|split].
  - intros f. rewrite list_elem_of_filter. unfold validFile.
    destruct (os_Stat (world sys) (Path f)) as [info|] eqn:Hst;
      [destruct (st_regular info) eqn:Hreg;
       destruct (os_Open sys (Path f)) eqn:Hop|];
      simpl; (split; [intros [Hv Hin]|intros (Hin & (i & Hi & Hr) & Ho)]);
      try done; try congruence.
    split; [done|]. split; [eauto|done].
  - rewrite list_filter_filter. apply list_filter_iff. tauto.
Qed.

(** X9.  After a selection in the same file system, validation can only
    drop entries that fail to open: every entry [SelectFiles] returns has
    already passed the stat and regular-file tests. *)
Theorem ValidateFiles_after_select (fs : FileSelector) :
  ValidateFiles sys (SelectFiles (world sys) fs).1 =
    filter (λ f, os_Open sys (Path f) = None)
      (SelectFiles (world sys) fs).1.
Proof.
  rewrite ValidateFiles_filter. apply filter_ext_in.
  intros f [_ Hs]%SelectFiles_files.
  unfold survivor in Hs. unfold validFile.
  destruct (isExcluded (world sys) fs (Path f)); [done|].
  destruct (os_Stat (world sys) (Path f)) as [info|]; [|done].
  destruct (st_regular info); [|done]. simpl.
  destruct (os_Open sys (Path f)); split; done.
Qed.

Lemma string_app_assoc (a b c : string) : (a +:+ b) +:+ c = a +:+ b +:+ c.
Proof.
  induction a as [|x a IH]; [done|].
  rewrite !append_cons. by rewrite IH.
Qed.

Lemma string_app_nil_r (a : string) : a +:+ "" = a.
Proof.
  induction a as [|x a IH]; [done|].
  rewrite !append_cons. by rewrite IH.
Qed.

Lemma HasSuffix_app (s suffix : string) :
  strings.HasSuffix (s +:+ suffix) suffix = true.
Proof.
  unfold strings.HasSuffix. rewrite length_app.
  replace (String.length s + String.length suffix - String.length suffix)%nat
    with (String.length s) by lia.
  rewrite drop_app_length, String.eqb_refl.
  by rewrite (proj2 (Nat.leb_le _ _)) by lia.
Qed.

(** What the scanner loop builds ends with a line feed, unless there was
    no line at all. *)
Lemma scanned_lines_end (lines : list string) (result : string) :
  (result = "" ∨ strings.HasSuffix result LF = true) →
  let text := foldl (λ result line, result +:+ line +:+ LF) result lines in
  text = "" ∨ strings.HasSuffix text LF = true.
Proof.
  revert result. induction lines as [|line lines IH]; intros result H; [done|].
  cbn [foldl]. apply IH. right.
  rewrite <- string_app_assoc. apply HasSuffix_app.
Qed.

Lemma readFileContent_suffix (filePath content : string) :
  readFileContent sys filePath = (content, None) →
  content = "" ∨ strings.HasSuffix content LF = true.
Proof.
  unfold readFileContent, readFileAsString.
  destruct (os_Open sys filePath); [done|].
  pose proof (scanned_lines_end (scan_lines sys filePath).1 ""
                ltac:(by left)) as Hend.
  destruct (scan_lines sys filePath) as [lines [e|]]; [done|].
  simpl in Hend.
  destruct (utf8_ValidString sys _); simpl; [|done].
  by intros [= <-].
Qed.

(** X10.  A content [readFileContent] returns without error is valid
    UTF-8 and is either empty or ends with a line feed, whatever the line
    endings of the file were. *)
Theorem readFileContent_ends_with_LF (filePath content : string) :
  readFileContent sys filePath = (content, None) →
  utf8_ValidString sys content = true ∧
  os_Open sys filePath = None ∧
  (content = "" ∨ strings.HasSuffix content LF = true).
Proof.
  intros Hread. split; [|split; [|by eapply readFileContent_suffix]].
  - unfold readFileContent in Hread.
    destruct (os_Open sys filePath); [done|].
    destruct (readFileAsString sys filePath) as [text [e|]]; [done|].
    destruct (utf8_ValidString sys text) eqn:Hutf; simpl in Hread; [|done].
    by injection Hread as <-.
  - unfold readFileContent in Hread.
    by destruct (os_Open sys filePath).
Qed.

Lemma formatFile_block (result : string) (file : FileInfo) :
  strings_TrimSpace sys "" = "" →
  formatFile sys result file = result +:+ fileBlock sys file.
Proof.
  intros Htrim. unfold formatFile, fileBlock.
  destruct (readFileContent sys (Path file)) as [content [e|]] eqn:Hread.
  { by rewrite string_app_nil_r. }
  destruct (String.eqb_spec (strings_TrimSpace sys content) "") as [|Hne].
  { by rewrite string_app_nil_r. }
  apply readFileContent_suffix in Hread as [->| ->].
  { done. }
  simpl. by rewrite !string_app_assoc.
Qed.

Lemma foldl_formatFile (files : list FileInfo) :
  strings_TrimSpace sys "" = "" →
  ∀ result,
  foldl (formatFile sys) result files =
    result +:+ foldr (λ f rest, fileBlock sys f +:+ rest) "" files.
Proof.
  intros Htrim. induction files as [|f files IH]; intros result.
  - by rewrite string_app_nil_r.
  - cbn [foldl foldr]. rewrite IH, formatFile_block by done.
    by rewrite string_app_assoc.
Qed.

(** X11.  [Format] never returns an error, and its text is the header,
    one block per file and the footer: the block of a file that cannot be
    read, is not valid UTF-8 or holds only white space is empty, every
    other block is a header line, the content and exactly one empty line
    (the content always ends with a line feed, so none is added). *)
Theorem Format_blocks (pf : PromptFormatter) :
  strings_TrimSpace sys "" = "" →
  Format sys pf =
    (header pf +:+
     foldr (λ f rest, fileBlock sys f +:+ rest) "" (files pf) +:+
     footer pf, None).
Proof.
  intros Htrim. unfold Format, header, footer.
  rewrite foldl_formatFile by done.
  destruct (String.eqb (prompt pf) ""); simpl;
    by rewrite !string_app_assoc.
Qed.

End FormatterFacts.

(** * The input handler *)

Section InteractiveFacts.

Import selector interactive chosen_files.

Variable lib : Lib.

Lemma selectParts_safe (files : list FileInfo) (parts : list string) :
  ∀ selected,
  ∃ selected',
    selectParts lib files parts selected = Some selected' ∧
    (length selected' ≤ length selected + length parts)%nat ∧
    ∀ f, f ∈ selected' → f ∈ selected ∨ f ∈ files.
Proof.
  induction parts as [|part parts IH]; intros selected.
  - exists selected. simpl. split; [done|]. split; [lia|auto].
  - cbn [selectParts length].
    destruct (fmt_Sscanf_d lib part) as [index|].
    + destruct ((index <? 1) || (index >? Z.of_nat (length files))) eqn:Hr.
      * destruct (IH selected) as (s' & -> & Hlen & Hin).
        exists s'. split; [done|]. split; [lia|done].
      * apply orb_false_iff in Hr as [Hlo Hhi].
        destruct (lookup_lt_is_Some_2 files (Z.to_nat (index - 1)))
          as [file Hfile]; [lia|].
        rewrite Hfile.
        destruct (IH (selected ++ [file])) as (s' & -> & Hlen & Hin).
        exists s'. split; [done|]. split.
        -- rewrite List.length_app in Hlen. simpl in Hlen. lia.
        -- intros f Hf. destruct (Hin f Hf) as [Hs|Hs]; [|by right].
           apply elem_of_app in Hs as [Hs|Hs]; [by left|].
           apply list_elem_of_singleton in Hs as ->. right.
           by eapply list_elem_of_lookup_2.
    + destruct (IH selected) as (s' & -> & Hlen & Hin).
      exists s'. split; [done|]. split; [lia|done].
Qed.

Lemma selectParts_chosen (files : list FileInfo) (parts : list string) :
  ∀ selected,
  selectParts lib files parts selected =
    Some (selected ++ omap (chosen lib files) parts).
Proof.
  induction parts as [|part parts IH]; intros selected.
  - simpl. by rewrite app_nil_r.
  - cbn [selectParts omap list_omap]. unfold chosen at 1.
    destruct (fmt_Sscanf_d lib part) as [index|]; [|apply IH].
    destruct (Z.ltb_spec index 1) as [Hlo|Hlo]; simpl.
    { rewrite bool_decide_eq_false_2 by lia. apply IH. }
    destruct (Z.gtb_spec index (Z.of_nat (length files))) as [Hhi|Hhi].
    { rewrite bool_decide_eq_false_2 by lia. apply IH. }
    rewrite bool_decide_eq_true_2 by lia.
    destruct (lookup_lt_is_Some_2 files (Z.to_nat (index - 1)))
      as [file Hfile]; [lia|].
    rewrite Hfile, IH. by rewrite <- app_assoc.
Qed.

Lemma selectsAll_eqb (input : string) :
  String.eqb input "" || String.eqb input "a" || String.eqb input "all" =
    selectsAll input.
Proof.
  unfold selectsAll.
  destruct (String.eqb_spec input "") as [->|H1]; [done|].
  destruct (String.eqb_spec input "a") as [->|H2]; [done|].
  destruct (String.eqb_spec input "all") as [->|H3]; [done|].
  simpl. symmetry. apply bool_decide_eq_false_2. tauto.
Qed.

(** X12.  [SelectFromList] never indexes the list out of range, whatever
    is typed: it always returns, and every entry it returns is an entry of
    the list it was given.  An empty list is returned as it is, without
    reading.  Otherwise, when no line can be read the result is an error;
    when a line is read and, trimmed, it is empty, [a] or [all], the whole
    list is returned; and for any other line the result is, over the
    fields of the trimmed line in the order typed and with repetitions
    kept, the file [files[index-1]] of each field from which [fmt.Sscanf]
    reads a number [index] with [1 <= index <= len(files)].  A field on
    which [fmt.Sscanf] reports an error, and a number outside that range,
    contribute nothing. *)
Theorem SelectFromList_safe (sc : Scanner) (files : list FileInfo) :
  (∃ selected err sc',
     SelectFromList lib sc files = Some ((selected, err), sc') ∧
     ∀ f, f ∈ selected → f ∈ files) ∧
  (files = [] → SelectFromList lib sc files = Some (([], None), sc)) ∧
  (files ≠ [] → Scan sc = None →
   ∃ e, SelectFromList lib sc files = Some (([], Some e), sc)) ∧
  (∀ text sc',
     files ≠ [] → Scan sc = Some (text, sc') →
     SelectFromList lib sc files =
       Some ((if selectsAll (strings_TrimSpace lib text) then files
              else omap (chosen lib files)
                     (strings_Fields lib (strings_TrimSpace lib text)),
              None), sc')) ∧
  (∀ part,
     (fmt_Sscanf_d lib part = None → chosen lib files part = None) ∧
     (∀ index, fmt_Sscanf_d lib part = Some index →
               ¬ (1 ≤ index ≤ Z.of_nat (length files)) →
               chosen lib files part = None) ∧
     (∀ index, fmt_Sscanf_d lib part = Some index →
               1 ≤ index ≤ Z.of_nat (length files) →
               ∃ file, files !! Z.to_nat (index - 1) = Some file ∧
                       chosen lib files part = Some file)).
Proof.
  split; [|split; [|split; [|split]]].
  - unfold SelectFromList.
    destruct (length files =? 0)%nat; [by eauto 10|].
    destruct (Scan sc) as [[text sc']|].
    + destruct (_ || _); [by eauto 10|].
      destruct (selectParts_safe files
                  (strings_Fields lib (strings_TrimSpace lib text)) [])
        as (s' & -> & _ & Hin).
      exists s', None, sc'. split; [done|].
      intros f Hf. destruct (Hin f Hf) as [Hn|]; [|done].
      by apply elem_of_nil in Hn.
    + destruct (sc_err sc); eexists [], _, _; (split; [done|]);
        intros f Hf; by apply elem_of_nil in Hf.
  - by intros ->.
  - intros Hne Hscan. unfold SelectFromList. rewrite Hscan.
    destruct files; [done|]. simpl. destruct (sc_err sc); eauto.
  - intros text sc' Hne Hscan. unfold SelectFromList. rewrite Hscan.
    destruct files as [|file files]; [done|].
    cbn [length Nat.eqb]. rewrite selectsAll_eqb.
    destruct (selectsAll (strings_TrimSpace lib text)); [done|].
    by rewrite selectParts_chosen.
  - intros part. unfold chosen. split; [by intros ->|]. split.
    + intros index -> Hout. by rewrite bool_decide_eq_false_2.
    + intros index -> Hin. rewrite bool_decide_eq_true_2 by done.
      destruct (lookup_lt_is_Some_2 files (Z.to_nat (index - 1)))
        as [file Hfile]; [lia|]. eauto.
Qed.

Lemma readPatterns_patterns (lines : list string) (err : option error) :
  ∀ patterns pats sc',
  readPatterns lib lines err patterns = ((pats, None), sc') →
  Forall (λ p, p ≠ "") patterns → Forall (λ p, p ≠ "") pats.
Proof.
  induction lines as [|text lines IH]; intros patterns pats sc' Hread Hall.
  - simpl in Hread. destruct err; [done|]. by injection Hread as <- _.
  - cbn [readPatterns] in Hread.
    destruct (String.eqb_spec (strings_TrimSpace lib text) "") as [|Hne].
    + by injection Hread as <- _.
    + eapply IH; [done|]. apply Forall_app. split; [done|].
      by apply Forall_singleton.
Qed.

(** X13.  When [GetFilePatterns] returns without error, the list it
    returns is never empty and holds no empty pattern: it is ["*"] when
    nothing was typed. *)
Theorem GetFilePatterns_nonempty (sc sc' : Scanner) (pats : list string) :
  GetFilePatterns lib sc = ((pats, None), sc') →
  pats ≠ [] ∧ Forall (λ p, p ≠ "") pats.
Proof.
  unfold GetFilePatterns.
  destruct (readPatterns lib (sc_lines sc) (sc_err sc) [])
    as [[patterns [e|]] sc1] eqn:Hread; [done|].
  apply readPatterns_patterns in Hread; [|constructor].
  destruct patterns as [|p patterns]; simpl; intros [= <- <-].
  - split; [done|]. by apply Forall_singleton.
  - done.
Qed.

Lemma readPatterns_block (block : list string) (blank : string)
  (rest : list string) (err : option error) :
  Forall (λ text, strings_TrimSpace lib text ≠ "") block →
  strings_TrimSpace lib blank = "" →
  ∀ patterns,
  readPatterns lib (block ++ blank :: rest) err patterns =
    ((patterns ++ (strings_TrimSpace lib <$> block), None),
     {| sc_lines := rest; sc_err := err |}).
Proof.
  intros Hblock Hblank.
  induction Hblock as [|text block Htext _ IH]; intros patterns.
  - cbn [app readPatterns]. rewrite Hblank. simpl. by rewrite app_nil_r.
  - cbn [app readPatterns].
    destruct (String.eqb_spec (strings_TrimSpace lib text) ""); [done|].
    rewrite IH, fmap_cons. by rewrite <- app_assoc.
Qed.

(** X14.  The prompts read consecutive blocks of lines: on two blocks of
    lines that are not blank, each closed by a blank line,
    [GetFilePatterns] returns the trimmed lines of the first block and
    leaves the scanner at the second, from which [GetExcludePatterns]
    returns the trimmed lines of the second block and leaves what follows
    it. *)
Theorem patterns_then_excludes (block1 block2 rest : list string)
  (blank1 blank2 : string) (err : option error) :
  block1 ≠ [] →
  Forall (λ text, strings_TrimSpace lib text ≠ "") block1 →
  Forall (λ text, strings_TrimSpace lib text ≠ "") block2 →
  strings_TrimSpace lib blank1 = "" →
  strings_TrimSpace lib blank2 = "" →
  let sc := {| sc_lines := block1 ++ blank1 :: block2 ++ blank2 :: rest;
               sc_err := err |} in
  ∃ sc',
    GetFilePatterns lib sc = ((strings_TrimSpace lib <$> block1, None), sc') ∧
    GetExcludePatterns lib sc' =
      ((strings_TrimSpace lib <$> block2, None),
       {| sc_lines := rest; sc_err := err |}).
Proof.
  intros Hne H1 H2 Hb1 Hb2 sc.
  exists {| sc_lines := block2 ++ blank2 :: rest; sc_err := err |}.
  unfold GetFilePatterns, GetExcludePatterns. simpl.
  rewrite !readPatterns_block by done. simpl. split; [|done].
  by destruct block1.
Qed.

End InteractiveFacts.

(** * The output *)

Section ClipboardFacts.

Import clipboard.

Variable env : Env.

Lemma writeToFile_error (text filename : string) (err : error) :
  writeToFile env text filename = Some err →
  (∃ cause, os_Create env filename = Some cause ∧
            err = Errorf "failed to create output file" cause) ∨
  (∃ cause, os_Create env filename = None ∧
            file_WriteString env filename text = Some cause ∧
            err = Errorf "failed to write to output file" cause).
Proof.
  unfold writeToFile.
  destruct (os_Create env filename) as [c|]; [intros [= <-]; eauto|].
  destruct (file_WriteString env filename text) as [c|]; [|done].
  intros [= <-]. right. eauto.
Qed.

(** X15.  The only errors [WriteToOutput] returns are those of creating
    or writing the target file, which is [output], or [prompt.txt] when
    [output] is empty; a failure of the clipboard is never returned. *)
Theorem WriteToOutput_errors (text output : string) (verbose : bool)
  (err : error) :
  WriteToOutput env text output verbose = Some err →
  let filename := if String.eqb output "" then "prompt.txt" else output in
  (∃ cause, os_Create env filename = Some cause ∧
            err = Errorf "failed to create output file" cause) ∨
  (∃ cause, os_Create env filename = None ∧
            file_WriteString env filename text = Some cause ∧
            err = Errorf "failed to write to output file" cause).
Proof.
  unfold WriteToOutput. destruct (String.eqb output ""); simpl.
  - destruct (IsClipboardSupported env); [|apply writeToFile_error].
    destruct (CopyToClipboard env text); [apply writeToFile_error|done].
  - apply writeToFile_error.
Qed.

(** X16.  When [IsClipboardSupported] reports support, [CopyToClipboard]
    runs a command whose program [exec.LookPath] finds, and fails only if
    running that command fails; outside Windows the command reads the
    text unchanged. *)
Theorem CopyToClipboard_supported (text : string) :
  IsClipboardSupported env = true →
  ∃ program args stdin,
    exec_LookPath env program = true ∧
    (GOOS env ≠ "windows" → stdin = text) ∧
    CopyToClipboard env text =
      Errorf "failed to copy to clipboard" <$>
        cmd_Run env (program :: args) stdin.
Proof.
  unfold IsClipboardSupported, CopyToClipboard.
  destruct (String.eqb_spec (GOOS env) "windows") as [Hw|Hw].
  { intros Hfound.
    exists "clip", [], (default text (GBK_String env text)).
    split; [done|]. split; [done|].
    by destruct (cmd_Run env ["clip"] (default text (GBK_String env text))). }
  destruct (String.eqb (GOOS env) "darwin").
  { intros Hfound. exists "pbcopy", [], text.
    split; [done|]. split; [done|].
    by destruct (cmd_Run env ["pbcopy"] text). }
  destruct (String.eqb (GOOS env) "linux"); [|done].
  destruct (exec_LookPath env "xclip") eqn:Hxclip.
  { intros _. exists "xclip", ["-selection"; "clipboard"], text.
    split; [done|]. split; [done|].
    by destruct (cmd_Run env ["xclip"; "-selection"; "clipboard"] text). }
  simpl. intros Hxsel. rewrite Hxsel.
  exists "xsel", ["--clipboard"; "--input"], text.
  split; [done|]. split; [done|].
  by destruct (cmd_Run env ["xsel"; "--clipboard"; "--input"] text).
Qed.

End ClipboardFacts.

(** * The command *)

Section MainFacts.

Import main selector selection.

Lemma SelectFiles_not_excluded (w : World) (fs : FileSelector)
  (f : FileInfo) (exclude : string) :
  f ∈ (SelectFiles w fs).1 → exclude ∈ excludes fs →
  excludeMatches w (Path f) exclude = false.
Proof.
  intros [_ Hs]%SelectFiles_files Hin. unfold survivor in Hs.
  destruct (isExcluded w fs (Path f)) eqn:Hex; [done|].
  destruct (excludeMatches w (Path f) exclude) eqn:Hm; [|done].
  assert (isExcluded w fs (Path f) = true)
    by (apply isExcludedBy_true; eauto).
  congruence.
Qed.

Lemma SelectFiles_within_ceiling (w : World) (fs : FileSelector)
  (f : FileInfo) :
  f ∈ (SelectFiles w fs).1 → maxFileSize fs > 0 → Size f ≤ maxFileSize fs.
Proof.
  intros [_ Hs]%SelectFiles_files Hmax. unfold survivor in Hs.
  destruct (isExcluded w fs (Path f)); [done|].
  destruct (os_Stat w (Path f)) as [info|]; [|done].
  destruct (st_regular info); [|done].
  replace (maxFileSize fs >? 0) with true in Hs by lia. simpl in Hs.
  destruct (st_size info >? maxFileSize fs) eqn:Hsize; [done|].
  injection Hs as <-. simpl. lia.
Qed.

(** An exclude pattern [dir/**] matches the paths that contain [dir]. *)
Lemma excludeMatches_vendor (w : World) (P : string) :
  excludeMatches w P "vendor/**" = strings.Contains P "vendor" ∧
  excludeMatches w P "node_modules/**" = strings.Contains P "node_modules" ∧
  excludeMatches w P ".git/**" = strings.Contains P ".git".
Proof.
  unfold excludeMatches, matchesRecursiveExclude.
  repeat split.
  - change (strings.Contains "vendor/**" "**") with true.
    change (strings.SplitN2 "vendor/**" "**") with ["vendor/"; ""].
    lazy beta iota zeta.
    change (strings.TrimSuffix "vendor/" "/") with "vendor".
    change (strings.TrimPrefix "" "/") with "".
    change (String.eqb "vendor" "") with false.
    change (String.eqb "" "") with true.
    by destruct (strings.Contains P "vendor").
  - change (strings.Contains "node_modules/**" "**") with true.
    change (strings.SplitN2 "node_modules/**" "**")
      with ["node_modules/"; ""].
    lazy beta iota zeta.
    change (strings.TrimSuffix "node_modules/" "/") with "node_modules".
    change (strings.TrimPrefix "" "/") with "".
    change (String.eqb "node_modules" "") with false.
    change (String.eqb "" "") with true.
    by destruct (strings.Contains P "node_modules").
  - change (strings.Contains ".git/**" "**") with true.
    change (strings.SplitN2 ".git/**" "**") with [".git/"; ""].
    lazy beta iota zeta.
    change (strings.TrimSuffix ".git/" "/") with ".git".
    change (strings.TrimPrefix "" "/") with "".
    change (String.eqb ".git" "") with false.
    change (String.eqb "" "") with true.
    by destruct (strings.Contains P ".git").
Qed.

(** The defaults merged with flag values, the size flag as [runCommand]
    passes it on. *)
Lemma Merge_default (files excl : list string) (prompt output : string)
  (maxSize : Z) :
  config.Merge config.DefaultConfig files excl prompt output
    (if maxSize =? 0 then config.MaxFileSize config.DefaultConfig
     else maxSize) =
  {| config.Files := files;
     config.Exclude := ["vendor/**"; "node_modules/**"; ".git/**"] ++ excl;
     config.Prompt := prompt;
     config.MaxFileSize := if maxSize >? 0 then maxSize else 1048576;
     config.Output := output |}.
Proof.
  unfold config.Merge.
  change (config.MaxFileSize config.DefaultConfig) with 1048576.
  destruct (String.eqb_spec prompt "") as [->|Hp];
    destruct (String.eqb_spec output "") as [->|Ho];
    destruct files, excl; cbn [length Nat.ltb Nat.leb negb];
    cbn [config.Files config.Exclude config.Prompt config.MaxFileSize
         config.Output config.DefaultConfig app];
    (destruct (Z.eqb_spec maxSize 0) as [->|Hz];
     [change (1048576 >? 0) with true; change (0 >? 0) with false
     |destruct (maxSize >? 0)]);
    cbn [config.Files config.Exclude config.Prompt config.MaxFileSize
         config.Output config.DefaultConfig app];
    reflexivity.
Qed.

Variable m : Machine.


(** X18.  Without a configuration file and outside interactive mode,
    [runCommand] runs the batch mode on the flags over the defaults: the
    pattern ["*"] when no file flag is given, the three default exclude
    patterns before those of the flags, and the size ceiling of the flag
    when it is positive, 1,048,576 otherwise.  So the selection of such a
    run never returns a path that contains [vendor], [node_modules] or
    [.git], nor a file above the ceiling, and no flag value lifts the
    ceiling. *)
Theorem runCommand_without_config
  (runInteractiveMode : config.Config → option error) (flags : Flags) :
  configPath flags = "" → interactive_mode flags = false →
  let cfg :=
    {| config.Files := match files flags with
                       | [] => ["*"]
                       | _ => files flags
                       end;
       config.Exclude :=
         ["vendor/**"; "node_modules/**"; ".git/**"] ++ main.excludes flags;
       config.Prompt := prompt flags;
       config.MaxFileSize :=
         if maxSize flags >? 0 then maxSize flags else 1048576;
       config.Output := output flags |} in
  runCommand m runInteractiveMode flags = Returns (runBatchMode m flags cfg) ∧
  config.MaxFileSize cfg > 0 ∧
  ∀ f, f ∈ (SelectFiles (formatter.world (sys m))
              (selector.New (config.Files cfg) (config.Exclude cfg)
                 (config.MaxFileSize cfg))).1 →
       strings.Contains (Path f) "vendor" = false ∧
       strings.Contains (Path f) "node_modules" = false ∧
       strings.Contains (Path f) ".git" = false ∧
       Size f ≤ config.MaxFileSize cfg.
Proof.
  intros Hconf Hbatch cfg.
  assert (config.MaxFileSize cfg > 0) as Hpos.
  { unfold cfg. simpl. destruct (maxSize flags >? 0) eqn:E; lia. }
  split; [|split; [done|]].
  - unfold runCommand. rewrite Hconf, Hbatch.
    change (negb (String.eqb "" "")) with false. cbv iota.
    unfold mergedConfig. rewrite Merge_default.
    unfold cfg. by destruct (files flags).
  - intros f Hf.
    pose proof (excludeMatches_vendor (formatter.world (sys m)) (Path f))
      as (Hv & Hn & Hg).
    rewrite <- Hv, <- Hn, <- Hg.
    repeat split.
    + eapply SelectFiles_not_excluded; [done|]. simpl. left.
    + eapply SelectFiles_not_excluded; [done|]. simpl. right. left.
    + eapply SelectFiles_not_excluded; [done|]. simpl. do 2 right. left.
    + by apply (SelectFiles_within_ceiling _ _ f Hf).
Qed.

(** X19.  [runCommand] never dereferences a nil configuration, and a
    configuration file that does not exist is no error: the run is the
    run without the [--config] flag. *)
Theorem runCommand_missing_config
  (runInteractiveMode : config.Config → option error) (flags : Flags) :
  runCommand m runInteractiveMode flags ≠ Panics ∧
  (∀ err, config.os_Open (conf m) (configPath flags) = inr err →
          config.IsNotExist err = true →
          runCommand m runInteractiveMode flags =
          runCommand m runInteractiveMode
            {| files := files flags; main.excludes := main.excludes flags;
               prompt := prompt flags;
               interactive_mode := interactive_mode flags;
               output := output flags; configPath := "";
               dryRun := dryRun flags; maxSize := maxSize flags;
               verbose := verbose flags |}).
Proof.
  split.
  - unfold runCommand, config.LoadConfig.
    repeat (case_match; simplify_eq/=; try done).
  - intros err Hopen Hmissing. unfold runCommand at 1.
    destruct (String.eqb (configPath flags) "") eqn:Hpath; simpl.
    + done.
    + unfold config.LoadConfig. rewrite Hopen, Hmissing. done.
Qed.

(** X20.  [generateOutput] fails only when the target file, [cfg.Output]
    or [prompt.txt], cannot be created or written, and the error says so
    under "failed to write output": formatting never fails, and a clipboard
    that fails is replaced by [prompt.txt].  So it returns nil whenever
    that file can be created and written. *)
Theorem generateOutput_errors (flags : Flags) (cfg : config.Config)
  (selected : list FileInfo) :
  let filename := if String.eqb (config.Output cfg) "" then "prompt.txt"
                  else config.Output cfg in
  (∀ err, generateOutput m flags cfg selected = Some err →
     ∃ cause,
       (clipboard.os_Create (clip m) filename = Some cause ∧
        err = Errorf "failed to write output"
                (Errorf "failed to create output file" cause)) ∨
       (clipboard.os_Create (clip m) filename = None ∧
        err = Errorf "failed to write output"
                (Errorf "failed to write to output file" cause))) ∧
  (clipboard.os_Create (clip m) filename = None →
   (∀ text, clipboard.file_WriteString (clip m) filename text = None) →
   generateOutput m flags cfg selected = None).
Proof.
  intros filename. unfold generateOutput, formatter.Format.
  cbv beta iota zeta.
  set (text := (_ +:+ formatter.LF)%string).
  unfold clipboard.WriteToOutput. fold filename. split.
  - intros err Herr.
    assert (∃ e, clipboard.writeToFile (clip m) text filename = Some e ∧
                 err = Errorf "failed to write output" e) as (e & He & ->).
    { unfold filename in *.
      destruct (String.eqb (config.Output cfg) "").
      - destruct (clipboard.IsClipboardSupported (clip m)).
        + destruct (clipboard.CopyToClipboard (clip m) text).
          * destruct (clipboard.writeToFile (clip m) text "prompt.txt")
              as [e'|]; [|done]. injection Herr as <-. eauto.
          * done.
        + destruct (clipboard.writeToFile (clip m) text "prompt.txt")
            as [e'|]; [|done]. injection Herr as <-. eauto.
      - destruct (clipboard.writeToFile (clip m) text (config.Output cfg))
          as [e'|]; [|done]. injection Herr as <-. eauto. }
    apply writeToFile_error in He
      as [(cause & Hc & ->)|(cause & Hc & _ & ->)]; eauto.
  - intros Hcreate Hwrite.
    assert (clipboard.writeToFile (clip m) text filename = None) as Hfile.
    { unfold clipboard.writeToFile. by rewrite Hcreate, Hwrite. }
    unfold filename in *.
    destruct (String.eqb (config.Output cfg) "").
    + destruct (clipboard.IsClipboardSupported (clip m)).
      * destruct (clipboard.CopyToClipboard (clip m) text); [|done].
        by rewrite Hfile.
      * by rewrite Hfile.
    + by rewrite Hfile.
Qed.

End MainFacts.

(** * The further properties at work *)

Section DemoMore.

Import selector selection.

Lemma SelectFiles_regular_absolute_witness :
  (∃ q, filepath_Abs demo.world q = Some "/w/a.go") ∧
  isExcluded demo.world (New ["*"] ["*.txt"] 0) "/w/a.go" = false ∧
  ∃ info, os_Stat demo.world "/w/a.go" = Some info ∧ st_regular info = true.
Proof.
  apply (SelectFiles_regular_absolute demo.world (New ["*"] ["*.txt"] 0)
           {| Path := "/w/a.go"; Size := 100 |}).
  apply list_elem_of_here.
Defined.

Lemma SelectFiles_ceiling_filters_witness :
  SelectFiles demo.world (New ["**"] [] 1000) =
    ([ {| Path := "/w/a.go"; Size := 100 |};
       {| Path := "/w/b.txt"; Size := 50 |} ], None).
Proof.
  exact (eq_trans
           (SelectFiles_ceiling_filters demo.world ["**"] [] 1000 eq_refl)
           eq_refl).
Defined.

Lemma SelectFiles_append_patterns_witness :
  ∃ added,
    (SelectFiles demo.world (New (["sub/**"] ++ ["**"]) [] 0)).1 =
      (SelectFiles demo.world (New ["sub/**"] [] 0)).1 ++ added ∧
    (SelectFiles demo.world (New ["sub/**"] [] 0)).2 = None ∧
    ∀ f, f ∈ added →
         Path f ∈ candidates demo.world ["**"] ∧
         Path f ∉ candidates demo.world ["sub/**"].
Proof.
  apply (SelectFiles_append_patterns demo.world ["sub/**"] ["**"] [] 0).
  - discriminate.
  - reflexivity.
Defined.

Lemma SelectFiles_same_patterns_witness :
  {| Path := "/w/b.txt"; Size := 50 |}
    ∈ (SelectFiles demo.world (New ["*"; "*.go"] [] 0)).1 ↔
  {| Path := "/w/b.txt"; Size := 50 |}
    ∈ (SelectFiles demo.world (New ["*.go"; "*"; "*"] [] 0)).1.
Proof.
  apply (SelectFiles_same_patterns demo.world
           ["*"; "*.go"] ["*.go"; "*"; "*"] [] 0).
  intros p. rewrite !elem_of_cons. tauto.
Defined.

Lemma formatBytes_scale_witness :
  ∃ (k : nat) (letter : ascii),
    (k ≤ 5)%nat ∧ String.get k "KMGTPE" = Some letter ∧
    formatter.formatBytes 4000000 =
      Some (formatter.ScaledBytes 4000000 (1024 ^ Z.of_nat (S k)) letter) ∧
    1024 ^ Z.of_nat (S k) ≤ 4000000 < 1024 * 1024 ^ Z.of_nat (S k).
Proof.
  apply (proj2 (formatBytes_scale 4000000 ltac:(lia))). lia.
Defined.

Lemma readFileContent_ends_with_LF_witness :
  let content := "package a" +:+ formatter.LF +:+ formatter.LF +:+
                 "func A() {}" +:+ formatter.LF in
  formatter.utf8_ValidString demo_run.sys content = true ∧
  formatter.os_Open demo_run.sys "/w/a.go" = None ∧
  (content = "" ∨ strings.HasSuffix content formatter.LF = true).
Proof.
  exact (readFileContent_ends_with_LF demo_run.sys "/w/a.go" _ eq_refl).
Defined.

Lemma Format_blocks_witness :
  let pf := formatter.New "do it"
              [ {| Path := "/w/a.go"; Size := 100 |};
                {| Path := "/w/b.txt"; Size := 50 |} ] false in
  formatter.Format demo_run.sys pf =
    (formatter.header pf +:+
     (formatter.fileBlock demo_run.sys {| Path := "/w/a.go"; Size := 100 |}
      +:+ "" +:+ "") +:+
     formatter.footer pf, None).
Proof.
  exact (Format_blocks demo_run.sys _ eq_refl).
Defined.

Lemma GetFilePatterns_nonempty_witness :
  ["*"] ≠ [] ∧ Forall (λ p : string, p ≠ "") ["*"].
Proof.
  exact (GetFilePatterns_nonempty demo_run.lib
           {| interactive.sc_lines := [" "; "x"];
              interactive.sc_err := None |}
           {| interactive.sc_lines := ["x"]; interactive.sc_err := None |}
           ["*"] eq_refl).
Defined.

Lemma patterns_then_excludes_witness :
  ∃ sc',
    interactive.GetFilePatterns demo_run.lib demo_run.stdin =
      ((["*.go"; "sub/**"], None), sc') ∧
    interactive.GetExcludePatterns demo_run.lib sc' =
      ((["*_test.go"], None),
       {| interactive.sc_lines := ["y"]; interactive.sc_err := None |}).
Proof.
  apply (patterns_then_excludes demo_run.lib
           [" *.go "; "sub/**"] ["*_test.go"] ["y"] "" " " None).
  - discriminate.
  - repeat constructor; discriminate.
  - repeat constructor; discriminate.
  - reflexivity.
  - reflexivity.
Defined.

Lemma WriteToOutput_errors_witness :
  (∃ cause, clipboard.os_Create demo_run.clip "/etc/out.txt" = Some cause ∧
            Errorf "failed to create output file" (ErrOS "permission denied") =
            Errorf "failed to create output file" cause) ∨
  (∃ cause, clipboard.os_Create demo_run.clip "/etc/out.txt" = None ∧
            clipboard.file_WriteString demo_run.clip "/etc/out.txt" "text" =
              Some cause ∧
            Errorf "failed to create output file" (ErrOS "permission denied") =
            Errorf "failed to write to output file" cause).
Proof.
  exact (WriteToOutput_errors demo_run.clip "text" "/etc/out.txt" false
           _ eq_refl).
Defined.

Lemma CopyToClipboard_supported_witness :
  ∃ program args stdin,
    clipboard.exec_LookPath demo_run.clip program = true ∧
    (clipboard.GOOS demo_run.clip ≠ "windows" → stdin = "text") ∧
    clipboard.CopyToClipboard demo_run.clip "text" =
      Errorf "failed to copy to clipboard" <$>
        clipboard.cmd_Run demo_run.clip (program :: args) stdin.
Proof.
  exact (CopyToClipboard_supported demo_run.clip "text" eq_refl).
Defined.


Lemma runCommand_without_config_witness :
  main.runCommand demo_run.machine (λ _, None) demo_run.flags =
    main.Returns
      (main.runBatchMode demo_run.machine demo_run.flags
         {| config.Files := ["**"];
            config.Exclude := ["vendor/**"; "node_modules/**"; ".git/**"];
            config.Prompt := ""; config.MaxFileSize := 1048576;
            config.Output := "" |}).
Proof.
  exact (proj1 (runCommand_without_config demo_run.machine (λ _, None)
                  demo_run.flags eq_refl eq_refl)).
Defined.

(** Of [a.go] and [b.txt], the answer [2 7 x 1 2] selects [b.txt], [a.go]
    and [b.txt] again: [7] is out of range and [x] is no number. *)
Lemma SelectFromList_safe_witness :
  interactive.SelectFromList demo_run.lib
    {| interactive.sc_lines := [" 2 7 x 1 2 "; "y"];
       interactive.sc_err := None |}
    [ {| Path := "/w/a.go"; Size := 100 |};
      {| Path := "/w/b.txt"; Size := 50 |} ] =
  Some (([ {| Path := "/w/b.txt"; Size := 50 |};
           {| Path := "/w/a.go"; Size := 100 |};
           {| Path := "/w/b.txt"; Size := 50 |} ], None),
        {| interactive.sc_lines := ["y"]; interactive.sc_err := None |}).
Proof.
  exact (eq_trans
           (proj1 (proj2 (proj2 (proj2
              (SelectFromList_safe demo_run.lib
                 {| interactive.sc_lines := [" 2 7 x 1 2 "; "y"];
                    interactive.sc_err := None |}
                 [ {| Path := "/w/a.go"; Size := 100 |};
                   {| Path := "/w/b.txt"; Size := 50 |} ]))))
              " 2 7 x 1 2 "
              {| interactive.sc_lines := ["y"];
                 interactive.sc_err := None |}
              ltac:(done) eq_refl)
           eq_refl).
Defined.

End DemoMore.
